(** * Actual-Budget-Normalizer: the row normalization pipeline

    Shallow embedding of [app/agents/transaction_agent.py] (response
    extractor, category memory, normalization agent) and of
    [app/workers/job_runner.py] (batch processor).

    Python strings are sequences of Unicode code points: [text] below. *)

From Stdlib Require Import ZArith NArith String Ascii Bool.
From stdpp Require Import base list.
Import ListNotations.

Open Scope N_scope.

(* ================================================================== *)
(** ** Python text *)

Definition code := N.
Definition text := list code.

(** ASCII string literals as [text]. *)
Definition txt (s : string) : text :=
  map (fun a => N_of_ascii a) (list_ascii_of_string s).

(** ASCII literals in which ['] stands for a double quote. *)
Definition jtxt (s : string) : text :=
  map (fun c => if c =? 39 then 34 else c) (txt s).

Definition code_eqb (a b : code) : bool := N.eqb a b.

Fixpoint text_eqb (s t : text) : bool :=
  match s, t with
  | [], [] => true
  | a :: s', b :: t' => code_eqb a b && text_eqb s' t'
  | _, _ => false
  end.

Definition is_ascii_digit (c : code) : bool := (48 <=? c) && (c <=? 57).
Definition is_ascii_upper (c : code) : bool := (65 <=? c) && (c <=? 90).
Definition is_ascii_lower (c : code) : bool := (97 <=? c) && (c <=? 122).

(** [str.upper()] / [str.lower()] on the ASCII range, where [sanitize]
    applies them (its input has been encoded to ASCII first). *)
Definition ascii_upper (c : code) : code := if is_ascii_lower c then c - 32 else c.
Definition ascii_lower (c : code) : code := if is_ascii_upper c then c + 32 else c.
Definition py_upper (t : text) : text := map ascii_upper t.

(** [str.isspace()]: the code points of bidirectional class WS, B, S or
    general category Zs. *)
Definition is_py_space (c : code) : bool :=
  ((9 <=? c) && (c <=? 13)) || ((28 <=? c) && (c <=? 32)) ||
  (c =? 133) || (c =? 160) || (c =? 5760) ||
  ((8192 <=? c) && (c <=? 8202)) || (c =? 8232) || (c =? 8233) ||
  (c =? 8239) || (c =? 8287) || (c =? 12288).

Fixpoint drop_while (p : code -> bool) (s : text) : text :=
  match s with
  | [] => []
  | c :: s' => if p c then drop_while p s' else s
  end.

(** [str.strip()] *)
Definition py_strip (s : text) : text :=
  rev (drop_while is_py_space (rev (drop_while is_py_space s))).

(** Line boundaries of [str.splitlines()]. *)
Definition is_line_break (c : code) : bool :=
  ((10 <=? c) && (c <=? 13)) || ((28 <=? c) && (c <=? 30)) ||
  (c =? 133) || (c =? 8232) || (c =? 8233).

(** [str.splitlines()], splitting at every boundary character: a [\r\n]
    pair yields an extra empty line, which every caller below drops. *)
Fixpoint split_lines_aux (cur : text) (s : text) : list text :=
  match s with
  | [] => match cur with [] => [] | _ => [rev cur] end
  | c :: s' => if is_line_break c then rev cur :: split_lines_aux [] s'
               else split_lines_aux (c :: cur) s'
  end.
Definition splitlines (s : text) : list text := split_lines_aux [] s.

Fixpoint strip_prefix (p s : text) : option text :=
  match p, s with
  | [], _ => Some s
  | a :: p', b :: s' => if code_eqb a b then strip_prefix p' s' else None
  | _ :: _, [] => None
  end.

Fixpoint strip_prefix_ci (p s : text) : option text :=
  match p, s with
  | [], _ => Some s
  | a :: p', b :: s' => if code_eqb (ascii_lower a) (ascii_lower b) then strip_prefix_ci p' s' else None
  | _ :: _, [] => None
  end.

(* ================================================================== *)
(** ** Python floats *)

(** A Python float: a finite value [(-1)^neg * m * 10^e], an infinity or
    NaN.  A finite value is kept as the exact decimal the literal denotes;
    its rounding to the nearest binary64 value is not modelled, only
    whether that rounding overflows to an infinity. *)
Inductive pyfloat :=
| PFin (neg : bool) (m : N) (e : Z)
| PInf (neg : bool)
| PNaN.

Definition is_finite (f : pyfloat) : bool :=
  match f with PFin _ _ _ => true | _ => false end.

(** Number of decimal digits of a positive number. *)
Fixpoint ndigits_fuel (fuel : nat) (z : Z) : Z :=
  match fuel with
  | O => 0
  | S f => if (z <? 10)%Z then 1 else 1 + ndigits_fuel f (z / 10)
  end.
Definition ndigits (z : Z) : Z := ndigits_fuel (S (Z.to_nat (Z.log2 z))) z.

(** The binary64 overflow threshold [2^1024 - 2^970]: decimals at or above
    it round to an infinity. *)
Definition overflow_bound : Z := (2 ^ 1024 - 2 ^ 970)%Z.

(** [m * 10^e >= overflow_bound], decided without computing huge powers. *)
Definition overflows (m : N) (e : Z) : bool :=
  match m with
  | N0 => false
  | Npos p =>
      let d := ndigits (Zpos p) in
      (* 10^(d-1+e) <= m * 10^e < 10^(d+e) and 10^308 < overflow_bound < 10^309 *)
      if (d + e <=? 308)%Z then false
      else if (d + e >=? 310)%Z then true
      else if (0 <=? e)%Z then (Zpos p * 10 ^ e >=? overflow_bound)%Z
      else (Zpos p >=? overflow_bound * 10 ^ (- e))%Z
  end.

(** Rounding a decimal to a Python float. *)
Definition make_float (neg : bool) (m : N) (e : Z) : pyfloat :=
  if overflows m e then PInf neg else PFin neg m e.

Definition digit_val (c : code) : N := c - 48.

Definition digits_value (ds : text) : N :=
  fold_left (fun acc c => acc * 10 + digit_val c) ds 0.

Fixpoint span_digits (s : text) : text * text :=
  match s with
  | c :: s' => if is_ascii_digit c then let '(d, r) := span_digits s' in (c :: d, r) else ([], s)
  | [] => ([], [])
  end.

Definition sign_prefix (s : text) : bool * text :=
  match s with
  | 45 :: s' => (true, s')   (* '-' *)
  | 43 :: s' => (false, s')  (* '+' *)
  | _ => (false, s)
  end.

(** The exponent part [[eE][+-]?digits]; without digits it is not consumed. *)
Definition exponent_part (s : text) : Z * text :=
  match s with
  | c :: s1 =>
      if (c =? 101) || (c =? 69) then
        let '(neg, s2) := sign_prefix s1 in
        let '(ds, s3) := span_digits s2 in
        match ds with
        | [] => (0%Z, s)
        | _ => ((if neg then Z.opp else id) (Z.of_N (digits_value ds)), s3)
        end
      else (0%Z, s)
  | [] => (0%Z, s)
  end.

(** [_Py_dg_strtod]: the longest decimal prefix, [None] when there is none. *)
Definition dg_strtod (s : text) : option (pyfloat * text) :=
  let '(neg, s1) := sign_prefix s in
  let '(d1, s2) := span_digits s1 in
  let '(d2, s3) := match s2 with
                   | 46 :: s2' => span_digits s2'   (* '.' *)
                   | _ => ([], s2)
                   end in
  match d1 ++ d2 with
  | [] => None
  | ds =>
      let '(ex, s4) := exponent_part s3 in
      Some (make_float neg (digits_value ds) (ex - Z.of_nat (length d2))%Z, s4)
  end.

(** [_Py_parse_inf_or_nan] *)
Definition parse_inf_or_nan (s : text) : option (pyfloat * text) :=
  let '(neg, s1) := sign_prefix s in
  match strip_prefix_ci (txt "inf") s1 with
  | Some s2 => match strip_prefix_ci (txt "inity") s2 with
               | Some s3 => Some (PInf neg, s3)
               | None => Some (PInf neg, s2)
               end
  | None => match strip_prefix_ci (txt "nan") s1 with
            | Some s2 => Some (PNaN, s2)
            | None => None
            end
  end.

(** [_PyOS_ascii_strtod] *)
Definition ascii_strtod (s : text) : option (pyfloat * text) :=
  match dg_strtod s with
  | Some r => Some r
  | None => parse_inf_or_nan s
  end.

(** Underscore check of [_Py_string_to_number_with_underscores]: every
    ['_'] between two digits; the underscores are then removed. *)
Fixpoint remove_underscores (prev : code) (s : text) : option text :=
  match s with
  | [] => if prev =? 95 then None else Some []
  | c :: s' =>
      if c =? 95 then
        if is_ascii_digit prev then remove_underscores c s' else None
      else if (prev =? 95) && negb (is_ascii_digit c) then None
      else option_map (cons c) (remove_underscores c s')
  end.

(** [float(s)] for a Python [str] [s] ([PyFloat_FromString]).  Unicode
    white space becomes [' '] and other non-ASCII code points ['?'], as in
    [_PyUnicode_TransformDecimalAndSpaceToASCII]; its mapping of non-ASCII
    decimal digits to ASCII digits is not modelled. *)
Definition py_float_of_text (s : text) : option pyfloat :=
  let s1 := map (fun c => if is_py_space c then 32 else if 127 <? c then 63 else c) s in
  let s2 := py_strip s1 in
  match s2 with
  | [] => None
  | _ =>
      match remove_underscores 0 s2 with
      | None => None
      | Some s3 =>
          match ascii_strtod s3 with
          | Some (f, []) => Some f
          | _ => None
          end
      end
  end.

(* ================================================================== *)
(** ** [json.loads] (CPython's C scanner, [strict=True]) *)

#[local] Set Warnings "-register-all".
Inductive json :=
| JNull
| JBool (b : bool)
| JInt (z : Z)
| JFloat (f : pyfloat)
| JStr (t : text)
| JArr (l : list json)
| JObj (kv : list (text * json)).

(** A Python [dict]: keys in first-insertion order, no duplicates. *)
Fixpoint dict_set {V} (d : list (text * V)) (k : text) (v : V) : list (text * V) :=
  match d with
  | [] => [(k, v)]
  | (k', v') :: d' => if text_eqb k k' then (k, v) :: d' else (k', v') :: dict_set d' k v
  end.

Fixpoint dict_get {V} (d : list (text * V)) (k : text) : option V :=
  match d with
  | [] => None
  | (k', v') :: d' => if text_eqb k k' then Some v' else dict_get d' k
  end.

(** How [json.loads] can fail: a [JSONDecodeError], or the plain
    [ValueError] of an integer literal longer than
    [sys.get_int_max_str_digits()] (4300 by default).  The
    [RecursionError] of very deep nesting is not modelled. *)
Inductive json_error := DecodeError | IntTooLong.

Definition int_max_str_digits : N := 4300.

Definition is_json_ws (c : code) : bool := (c =? 32) || (c =? 9) || (c =? 10) || (c =? 13).
Definition skip_ws (s : text) : text := drop_while is_json_ws s.

Definition hex_val (c : code) : option N :=
  if is_ascii_digit c then Some (c - 48)
  else if (97 <=? c) && (c <=? 102) then Some (c - 87)
  else if (65 <=? c) && (c <=? 70) then Some (c - 55)
  else None.

Definition hex4 (a b c d : code) : option N :=
  match hex_val a, hex_val b, hex_val c, hex_val d with
  | Some x, Some y, Some z, Some w => Some (((x * 16 + y) * 16 + z) * 16 + w)
  | _, _, _, _ => None
  end.

Definition is_high_surrogate (u : N) : bool := (55296 <=? u) && (u <=? 56319).
Definition is_low_surrogate (u : N) : bool := (56320 <=? u) && (u <=? 57343).

(** [scanstring_unicode]: the body of a string after its opening quote. *)
Fixpoint scan_string (fuel : nat) (s : text) : option (text * text) :=
  match fuel with
  | O => None
  | S f =>
      match s with
      | [] => None
      | 34 :: r => Some ([], r)
      | 92 :: e :: r =>
          let simple (c : code) :=
            option_map (fun '(t, r') => (c :: t, r')) (scan_string f r) in
          if e =? 34 then simple 34 else if e =? 92 then simple 92
          else if e =? 47 then simple 47 else if e =? 98 then simple 8
          else if e =? 102 then simple 12 else if e =? 110 then simple 10
          else if e =? 114 then simple 13 else if e =? 116 then simple 9
          else if e =? 117 then
            match r with
            | h1 :: h2 :: h3 :: h4 :: (_ :: _) as r1 =>
                match hex4 h1 h2 h3 h4 with
                | None => None
                | Some u =>
                    let single := option_map (fun '(t, r') => (u :: t, r')) (scan_string f r1) in
                    if is_high_surrogate u then
                      match r1 with
                      | 92 :: 117 :: l1 :: l2 :: l3 :: l4 :: (_ :: _) as r2 =>
                          match hex4 l1 l2 l3 l4 with
                          | None => None
                          | Some u2 =>
                              if is_low_surrogate u2 then
                                let j := 65536 + (u - 55296) * 1024 + (u2 - 56320) in
                                option_map (fun '(t, r') => (j :: t, r')) (scan_string f r2)
                              else single
                          end
                      | _ => single
                      end
                    else single
                end
            | _ => None
            end
          else None
      | [92] => None
      | c :: r =>
          if c <=? 31 then None
          else option_map (fun '(t, r') => (c :: t, r')) (scan_string f r)
      end
  end.

(** [_match_number_unicode] *)
Definition match_number (s : text) : option (json_error + json * text) :=
  let '(neg, s1) := match s with 45 :: r => (true, r) | _ => (false, s) end in
  let int_part :=
    match s1 with
    | c :: r =>
        if (49 <=? c) && (c <=? 57) then let '(ds, r') := span_digits r in Some (c :: ds, r')
        else if c =? 48 then Some ([c], r) else None
    | [] => None
    end in
  match int_part with
  | None => None
  | Some (ip, s2) =>
      let '(fp, s3) :=
        match s2 with
        | 46 :: d :: r => if is_ascii_digit d then span_digits (d :: r) else ([], s2)
        | _ => ([], s2)
        end in
      let '(ex, s4) := exponent_part s3 in
      let is_float := negb (Nat.eqb (length fp) 0) || negb (Nat.eqb (length s3) (length s4)) in
      if is_float then
        Some (inr (JFloat (make_float neg (digits_value (ip ++ fp)) (ex - Z.of_nat (length fp))%Z), s4))
      else if int_max_str_digits <? N.of_nat (length ip) then Some (inl IntTooLong)
      else Some (inr (JInt ((if neg then Z.opp else id) (Z.of_N (digits_value ip))), s4))
  end.

(** [scan_once_unicode], [_parse_object_unicode], [_parse_array_unicode].
    Every two nested calls consume at least one code point, so the fuel
    [2 * length s + 2] given by [json_loads] never runs out. *)
Fixpoint parse_value (fuel : nat) (s : text) : json_error + json * text :=
  match fuel with
  | O => inl DecodeError
  | S f =>
      match s with
      | 34 :: r =>
          match scan_string (length r + 1) r with
          | Some (t, r') => inr (JStr t, r')
          | None => inl DecodeError
          end
      | 123 :: r =>
          match skip_ws r with
          | 125 :: r' => inr (JObj [], r')
          | r' => parse_members f [] r'
          end
      | 91 :: r =>
          match skip_ws r with
          | 93 :: r' => inr (JArr [], r')
          | r' => parse_elements f [] r'
          end
      | _ =>
          match strip_prefix (txt "null") s with Some r => inr (JNull, r) | None =>
          match strip_prefix (txt "true") s with Some r => inr (JBool true, r) | None =>
          match strip_prefix (txt "false") s with Some r => inr (JBool false, r) | None =>
          match strip_prefix (txt "NaN") s with Some r => inr (JFloat PNaN, r) | None =>
          match strip_prefix (txt "Infinity") s with Some r => inr (JFloat (PInf false), r) | None =>
          match strip_prefix (txt "-Infinity") s with Some r => inr (JFloat (PInf true), r) | None =>
          match match_number s with
          | Some res => res
          | None => inl DecodeError
          end end end end end end end
      end
  end
with parse_members (fuel : nat) (acc : list (text * json)) (s : text) : json_error + json * text :=
  match fuel with
  | O => inl DecodeError
  | S f =>
      match s with
      | 34 :: r =>
          match scan_string (length r + 1) r with
          | None => inl DecodeError
          | Some (k, r1) =>
              match skip_ws r1 with
              | 58 :: r2 =>
                  match parse_value f (skip_ws r2) with
                  | inl e => inl e
                  | inr (v, r3) =>
                      let acc' := dict_set acc k v in
                      match skip_ws r3 with
                      | 125 :: r4 => inr (JObj acc', r4)
                      | 44 :: r4 => parse_members f acc' (skip_ws r4)
                      | _ => inl DecodeError
                      end
                  end
              | _ => inl DecodeError
              end
          end
      | _ => inl DecodeError
      end
  end
with parse_elements (fuel : nat) (acc : list json) (s : text) : json_error + json * text :=
  match fuel with
  | O => inl DecodeError
  | S f =>
      match parse_value f s with
      | inl e => inl e
      | inr (v, r1) =>
          match skip_ws r1 with
          | 93 :: r2 => inr (JArr (acc ++ [v]), r2)
          | 44 :: r2 => parse_elements f (acc ++ [v]) (skip_ws r2)
          | _ => inl DecodeError
          end
      end
  end.

(** [json.loads(s)] *)
Definition json_loads (s : text) : json_error + json :=
  match s with
  | 65279 :: _ => inl DecodeError   (* "Unexpected UTF-8 BOM" *)
  | _ =>
      match parse_value (2 * length s + 2) (skip_ws s) with
      | inl e => inl e
      | inr (v, r) => match skip_ws r with [] => inr v | _ => inl DecodeError end
      end
  end.

(* ================================================================== *)
(** ** The response extractor ([TransactionAgent._extract_and_normalize_json],
       [TransactionAgent._parse_csv_fallback]) *)

(** [re.finditer(r"\{.*?\}", raw_output, re.DOTALL)]: from each ['{'] the
    shortest run up to the next ['}']; the search resumes after that
    ['}'].  An opening brace with no closing brace after it yields no
    match (nor does any later position). *)
Fixpoint scan_braces (cur : option text) (s : text) : list text :=
  match s with
  | [] => []
  | c :: s' =>
      match cur with
      | None => if c =? 123 then scan_braces (Some [c]) s' else scan_braces None s'
      | Some acc =>
          if c =? 125 then rev (c :: acc) :: scan_braces None s'
          else scan_braces (Some (c :: acc)) s'
      end
  end.
Definition find_candidates (s : text) : list text := scan_braces None s.

(** [app.core.models.Transaction] *)
Record Transaction := mkTransaction {
  date : text;
  payee : text;
  notes : text;
  category : text;
  amount : pyfloat
}.

(** The ways the extractor fails for a row. *)
Inductive extract_error :=
| MissingField (f : text)        (* ValueError: missing key in the JSON object *)
| AmountNotFloat                 (* float(amount) raised *)
| JsonValueError                 (* json.loads raised a ValueError that is not a JSONDecodeError *)
| NoNonEmptyLines
| CsvParseError
| FieldCountMismatch (n : nat).

Definition k_date : text := txt "date".
Definition k_payee : text := txt "payee".
Definition k_notes : text := txt "notes".
Definition k_category : text := txt "category".
Definition k_amount : text := txt "amount".

Definition required_fields : list text := [k_date; k_payee; k_notes; k_category; k_amount].

Fixpoint first_missing (d : list (text * json)) (fs : list text) : option text :=
  match fs with
  | [] => None
  | f :: fs' => match dict_get d f with None => Some f | Some _ => first_missing d fs' end
  end.

(** [float(v)] on a decoded JSON value. *)
Definition py_float_of_json (v : json) : option pyfloat :=
  match v with
  | JNull => None                                  (* TypeError *)
  | JBool b => Some (PFin false (if b then 1 else 0) 0)
  | JInt z => if overflows (Z.to_N (Z.abs z)) 0 then None   (* OverflowError *)
              else Some (PFin (Z.ltb z 0) (Z.to_N (Z.abs z)) 0)
  | JFloat f => Some f
  | JStr t => py_float_of_text t
  | JArr _ | JObj _ => None                        (* TypeError *)
  end.

Definition is_kept (c : code) : bool := is_ascii_upper c || is_ascii_digit c || (c =? 32).

(** [csv.reader] with the default dialect (delimiter [','], quotechar
    the double quote, doublequote, not strict, no escapechar), CPython 3.11+. *)
Inductive csv_state :=
| StartRecord | StartField | InField | InQuotedField | QuoteInQuotedField | EatCrnl.

Record csv_reader := mkReader {
  rd_state : csv_state;
  rd_field : text;    (* reversed *)
  rd_len : N;
  rd_fields : list text  (* reversed *)
}.

(** [_csv.field_size_limit()] *)
Definition field_limit : N := 131072.

Definition add_char (r : csv_reader) (st : csv_state) (c : code) : option csv_reader :=
  if field_limit <=? rd_len r then None
  else Some (mkReader st (c :: rd_field r) (N.succ (rd_len r)) (rd_fields r)).

Definition save_field (r : csv_reader) (st : csv_state) : csv_reader :=
  mkReader st [] 0 (rev (rd_field r) :: rd_fields r).

Definition is_crlf (c : code) : bool := (c =? 10) || (c =? 13).

(** [parse_process_char]; [None] as the character is [EOL]. *)
Definition csv_step (r : csv_reader) (oc : option code) : option csv_reader :=
  let eol_state := match oc with None => StartRecord | Some _ => EatCrnl end in
  let start_field (r : csv_reader) :=
    match oc with
    | None => Some (save_field r eol_state)
    | Some c =>
        if is_crlf c then Some (save_field r eol_state)
        else if c =? 34 then Some (mkReader InQuotedField (rd_field r) (rd_len r) (rd_fields r))
        else if c =? 44 then Some (save_field r StartField)
        else add_char r InField c
    end in
  match rd_state r with
  | StartRecord =>
      match oc with
      | None => Some r
      | Some c => if is_crlf c then Some (mkReader EatCrnl (rd_field r) (rd_len r) (rd_fields r))
                  else start_field r
      end
  | StartField => start_field r
  | InField =>
      match oc with
      | None => Some (save_field r eol_state)
      | Some c =>
          if is_crlf c then Some (save_field r eol_state)
          else if c =? 44 then Some (save_field r StartField)
          else add_char r InField c
      end
  | InQuotedField =>
      match oc with
      | None => Some r
      | Some c =>
          if c =? 34 then Some (mkReader QuoteInQuotedField (rd_field r) (rd_len r) (rd_fields r))
          else add_char r InQuotedField c
      end
  | QuoteInQuotedField =>
      match oc with
      | None => Some (save_field r eol_state)
      | Some c =>
          if c =? 34 then add_char r InQuotedField c
          else if c =? 44 then Some (save_field r StartField)
          else if is_crlf c then Some (save_field r eol_state)
          else add_char r InField c
      end
  | EatCrnl =>
      match oc with
      | None => Some (mkReader StartRecord (rd_field r) (rd_len r) (rd_fields r))
      | Some c => if is_crlf c then Some r else None
      end
  end.

Fixpoint csv_chars (r : csv_reader) (s : text) : option csv_reader :=
  match s with
  | [] => Some r
  | c :: s' => match csv_step r (Some c) with Some r' => csv_chars r' s' | None => None end
  end.

(** [next(csv.reader(StringIO(line)))] for a line without ['\n']. *)
Definition csv_read_line (line : text) : option (list text) :=
  match csv_chars (mkReader StartRecord [] 0 []) line with
  | None => None
  | Some r1 =>
      match csv_step r1 None with
      | None => None
      | Some r2 =>
          match rd_state r2 with
          | StartRecord => Some (rev (rd_fields r2))
          | st =>
              (* end of input inside a record *)
              if negb (rd_len r2 =? 0) || match st with InQuotedField => true | _ => false end
              then Some (rev (rd_fields (save_field r2 StartRecord)))
              else None   (* StopIteration *)
          end
      end
  end.

Definition nonempty_lines (raw : text) : list text :=
  List.filter (fun l => negb (Nat.eqb (length l) 0)) (map py_strip (splitlines raw)).

(** [TransactionAgent._parse_csv_fallback] *)
Definition parse_csv_fallback (raw : text) : extract_error + Transaction :=
  match last (nonempty_lines raw) with
  | None => inl NoNonEmptyLines
  | Some csv_row =>
      match csv_read_line csv_row with
      | None => inl CsvParseError
      | Some fields =>
          match fields with
          | [d; p; n; c; a] =>
              match py_float_of_text a with
              | Some f => inr (mkTransaction d p n c f)
              | None => inl AmountNotFloat
              end
          | _ => inl (FieldCountMismatch (length fields))
          end
      end
  end.

Section Extractor.

(** [unicodedata.normalize("NFKD", .)] is the concatenation of the full
    compatibility decompositions of the code points, followed by the
    canonical reordering of combining marks.  The reordering never moves an
    ASCII code point (all have combining class 0), and the sanitizer drops
    every non-ASCII code point right after normalizing, so the
    decomposition table [nfkd_char] is all that matters. *)
Variable nfkd_char : code -> text.

(** [str(v)] for a decoded JSON value that is not a [str] ([repr] of
    floats and lists). *)
Variable py_str : json -> text.

Definition nfkd (t : text) : text := flat_map nfkd_char t.

(** The per-field loop body of [_extract_and_normalize_json]:
    NFKD, [.encode("ASCII", "ignore").decode()], [.upper()], and keep only
    [string.ascii_uppercase + string.digits + " "]. *)
Definition sanitize (t : text) : text :=
  let v1 := nfkd t in
  let v2 := List.filter (fun c => c <? 128) v1 in
  let v3 := py_upper v2 in
  List.filter is_kept v3.

(** [value if isinstance(value, str) else str(value)] *)
Definition to_py_str (v : json) : text :=
  match v with JStr t => t | _ => py_str v end.

Definition null_to_empty (v : json) : json :=
  match v with JNull => JStr [] | _ => v end.

(** [data[k]] on a decoded object. *)
Definition json_field (d : list (text * json)) (k : text) : json := default JNull (dict_get d k).

(** The checks and coercions applied to the first candidate that
    [json.loads] accepts.  A candidate starts with ['{'], so a decoded
    candidate is always an object. *)
Definition normalize_parsed (v : json) : extract_error + Transaction :=
  let d := match v with JObj kv => kv | _ => [] end in
  match first_missing d required_fields with
  | Some f => inl (MissingField f)
  | None =>
      let get k := json_field d k in
      let notes_v := null_to_empty (get k_notes) in
      let category_v := null_to_empty (get k_category) in
      let date' := sanitize (to_py_str (get k_date)) in
      let payee' := sanitize (to_py_str (get k_payee)) in
      let notes' := sanitize (to_py_str notes_v) in
      let category' := sanitize (to_py_str category_v) in
      match py_float_of_json (get k_amount) with
      | None => inl AmountNotFloat
      | Some a => inr (mkTransaction date' payee' notes' category' a)
      end
  end.

(** The [for match in json_matches] loop: undecodable candidates
    ([json.JSONDecodeError]) are skipped; any other exception escapes. *)
Fixpoint try_candidates (cs : list text) : extract_error + option Transaction :=
  match cs with
  | [] => inr None
  | c :: cs' =>
      match json_loads c with
      | inl DecodeError => try_candidates cs'
      | inl IntTooLong => inl JsonValueError
      | inr v => match normalize_parsed v with
                 | inl e => inl e
                 | inr t => inr (Some t)
                 end
      end
  end.

(** [TransactionAgent._extract_and_normalize_json] *)
Definition extract_and_normalize_json (raw : text) : extract_error + option Transaction :=
  match find_candidates raw with
  | [] => inr None
  | ms => try_candidates ms
  end.

(** The extraction at the end of [TransactionAgent._parse_transaction]:
    the JSON path, and the CSV fallback when it yields nothing. *)
Definition extract (raw : text) : extract_error + Transaction :=
  match extract_and_normalize_json raw with
  | inl e => inl e
  | inr (Some t) => inr t
  | inr None => parse_csv_fallback raw
  end.

End Extractor.

(** Code points below U+00A0 are their own NFKD decomposition. *)
Definition nfkd_below_a0 (c : code) : text := [c].

Fixpoint n_digits_rev (fuel : nat) (n : N) : text :=
  match fuel with
  | O => []
  | S f => (48 + n mod 10) :: (if n <? 10 then [] else n_digits_rev f (n / 10))
  end.

(** [str(n)] of an integer. *)
Definition z_to_text (z : Z) : text :=
  let n := Z.to_N (Z.abs z) in
  (if (z <? 0)%Z then [45] else []) ++ rev (n_digits_rev (S (N.to_nat (N.log2 n))) n).

(** [str()] of the non-string JSON scalars [None], [True], [False] and of
    integers; floats and lists are rendered by their own [repr], not
    reproduced here. *)
Definition py_str_scalar (v : json) : text :=
  match v with
  | JNull => txt "None"
  | JBool true => txt "True"
  | JBool false => txt "False"
  | JInt z => z_to_text z
  | _ => []
  end.

(* ================================================================== *)
(** ** Category memory ([TransactionAgent.lookup_category_in_db],
       [TransactionAgent.add_category_to_db]) *)

(** The [categories] table: [(payee, category)] rows in storage order.
    [payee] is [unique=True]. *)
Definition memory := list (text * text).

(** Tokens of a LIKE pattern (escape character backslash, PostgreSQL's
    default). *)
Inductive like_tok := TAny | TOne | TLit (c : code).

Fixpoint like_tokens (p : text) : list like_tok :=
  match p with
  | [] => []
  | c :: p' =>
      if c =? 37 then TAny :: like_tokens p'          (* '%' *)
      else if c =? 95 then TOne :: like_tokens p'     (* '_' *)
      else if c =? 92 then                            (* backslash *)
        match p' with
        | c2 :: p'' => TLit c2 :: like_tokens p''
        | [] => [TLit c]
        end
      else TLit c :: like_tokens p'
  end.
(* A lone trailing backslash never occurs: the patterns built below end
   in ['%']. *)

Fixpoint like_match (ts : list like_tok) (s : text) : bool :=
  match ts with
  | [] => match s with [] => true | _ => false end
  | TAny :: ts' =>
      (fix go (s : text) : bool :=
         like_match ts' s || match s with [] => false | _ :: s' => go s' end) s
  | TOne :: ts' => match s with [] => false | _ :: s' => like_match ts' s' end
  | TLit c :: ts' =>
      match s with [] => false | c' :: s' => (c =? c') && like_match ts' s' end
  end.

Section CaseMapping.

(** [str.upper()]: Python's full upper-case mapping of one code point, a
    non-empty sequence of code points (U+00DF becomes ["SS"]), given as
    its first code point and the rest. *)
Variable upper_char : code -> code * text.

(** The database's [lower()], applied by ILIKE to both the value and the
    pattern, one code point at a time ([towlower] under a libc collation,
    the full lower-case mapping under ICU; the context-dependent final
    sigma of ICU is not modelled). *)
Variable lower_char : code -> text.

(** [s.upper()] *)
Definition str_upper (t : text) : text :=
  flat_map (fun c => let '(h, r) := upper_char c in h :: r) t.

(** [lower(s)] in the database *)
Definition db_lower (t : text) : text := flat_map lower_char t.

(** [s ILIKE p]: [lower(s) LIKE lower(p)]. *)
Definition ilike (s p : text) : bool :=
  like_match (like_tokens (db_lower p)) (db_lower s).

(** [lookup_category_in_db]: the first row (in storage order; the query
    has no ORDER BY) whose payee is [ILIKE '%' || payee.upper() || '%'],
    its category upper-cased. *)
Definition lookup_category_in_db (mem : memory) (payee : text) : option text :=
  let payee_upper := str_upper payee in
  let pattern := [37] ++ payee_upper ++ [37] in
  match find (fun '(k, _) => ilike k pattern) mem with
  | Some (_, c) => Some (str_upper c)
  | None => None
  end.

End CaseMapping.

(** [add_category_to_db]: insert unless a row with exactly this payee
    exists. *)
Definition add_category_to_db (mem : memory) (payee category : text) : memory :=
  if existsb (fun '(k, _) => text_eqb k payee) mem then mem
  else mem ++ [(payee, category)].

(* ================================================================== *)
(** ** The normalization agent ([TransactionAgent.parse_transaction]) *)

(** A value of a row dict from [DataFrame.to_dict(orient="records")]: a
    Python [str], or another value given by its [str()]. *)
Inductive cell := CStr (t : text) | COther (repr : text).

Definition row := list (text * cell).

Definition cell_str (v : cell) : text := match v with CStr t => t | COther r => r end.

(** Python truthiness of a [str]. *)
Definition truthy (t : text) : bool := negb (Nat.eqb (length t) 0).

Inductive agent_error :=
| TransportError                 (* the model call or its stream raised *)
| ExtractError (e : extract_error).

(** [str(row.get('payee', '')).upper()] *)
Definition payee_hint (upper_char : code -> code * text) (r : row) : text :=
  str_upper upper_char (cell_str (default (CStr []) (dict_get r k_payee))).

Section Agent.

Variable nfkd_char : code -> text.
Variable py_str : json -> text.
Variable upper_char : code -> code * text.
Variable lower_char : code -> text.

(** The model: the accumulated streamed text answering the request built
    from the row (with [existing_categories] and [existing_payees]
    attached), or a transport failure. *)
Variable llm : row -> list text -> list text -> option text.

(** [TransactionAgent._parse_transaction] *)
Definition parse_transaction_llm (r : row) (cats pays : list text) : agent_error + Transaction :=
  match llm r cats pays with
  | None => inl TransportError
  | Some raw_output =>
      match extract nfkd_char py_str raw_output with
      | inl e => inl (ExtractError e)
      | inr t => inr t
      end
  end.

(** [TransactionAgent.parse_transaction], with the category memory passed
    explicitly and the [add_category_to_db] calls it makes listed. *)
Definition parse_transaction (mem : memory) (r : row) (cats pays : list text)
  : memory * list (text * text) * (agent_error + Transaction) :=
  let payee := payee_hint upper_char r in
  let db_category := lookup_category_in_db upper_char lower_char mem payee in
  let hit := match db_category with Some c => truthy c | None => false end in
  let r' := match db_category with
            | Some c => if truthy c then dict_set r k_category (CStr c) else r
            | None => r
            end in
  match parse_transaction_llm r' cats pays with
  | inl e => (mem, [], inl e)
  | inr txn =>
      if negb hit && truthy (category txn)
      then (add_category_to_db mem payee (category txn), [(payee, category txn)], inr txn)
      else (mem, [], inr txn)
  end.

End Agent.

(* ================================================================== *)
(** ** The batch processor ([JobRunner.run_job]) *)

Inductive job_state := Pending | InProgress | Completed | Failed.

(** What a run can change: the job's row in the [jobs] table, the
    known-categories and known-payees JSON files ([None]: absent) and the
    S3 bucket. *)
Record world := mkWorld {
  job_status : job_state;
  job_completed_at : option text;
  job_error : option text;
  cats_file : option (list text);
  pays_file : option (list text);
  bucket : list (text * text)
}.

(** State and exceptions (carrying [str(exc)]) threaded through the body
    of the inner [try]. *)
Definition M (A : Type) := world -> world * (text + A).

Definition ret {A} (a : A) : M A := fun w => (w, inr a).
Definition raise {A} (msg : text) : M A := fun w => (w, inl msg).
Definition bind {A B} (m : M A) (k : A -> M B) : M B :=
  fun w => match m w with
           | (w', inl msg) => (w', inl msg)
           | (w', inr a) => k a w'
           end.
Definition lift {A} (r : text + A) : M A := fun w => (w, r).
Definition modify (f : world -> world) : M unit := fun w => (f w, inr tt).
Definition gets {A} (f : world -> A) : M A := fun w => (w, inr (f w)).

Notation "x <- m ;; k" := (bind m (fun x => k)) (at level 80, m at next level, right associativity).
Notation "m ;;; k" := (bind m (fun _ => k)) (at level 80, right associativity).

Definition set_status (s : job_state) (w : world) : world :=
  mkWorld s (job_completed_at w) (job_error w) (cats_file w) (pays_file w) (bucket w).
Definition set_finished (s : job_state) (at_ : text) (err : option text) (w : world) : world :=
  mkWorld s (Some at_) (match err with Some e => Some e | None => job_error w end)
          (cats_file w) (pays_file w) (bucket w).
Definition set_cats (c : list text) (w : world) : world :=
  mkWorld (job_status w) (job_completed_at w) (job_error w) (Some c) (pays_file w) (bucket w).
Definition set_pays (p : list text) (w : world) : world :=
  mkWorld (job_status w) (job_completed_at w) (job_error w) (cats_file w) (Some p) (bucket w).
Definition set_object (key data : text) (w : world) : world :=
  mkWorld (job_status w) (job_completed_at w) (job_error w) (cats_file w) (pays_file w)
          (dict_set (bucket w) key data).

(** Python's [x in xs] on a list of [str]. *)
Definition py_in (x : text) (xs : list text) : bool := existsb (text_eqb x) xs.

(** The aggregation at the end of [process_row]. *)
Definition aggregate (txn : Transaction) (cats pays : list text) : list text * list text :=
  let cats' := if truthy (category txn) && negb (py_in (category txn) cats)
               then cats ++ [category txn] else cats in
  let pays' := if truthy (payee txn) && negb (py_in (payee txn) pays)
               then pays ++ [payee txn] else pays in
  (cats', pays').

(** The [as_completed] loop: [order] lists the row indices in the order
    their futures complete, [outcome i] is what [process_row] returned for
    row [i] or the message of the exception it raised; the first failed
    future re-raises.  [results[idx] = txn_dict] is stdpp's list insert
    (the index is always in range). *)
Fixpoint collect_results (outcome : nat -> text + Transaction) (order : list nat)
    (results : list (option Transaction)) (cats pays : list text)
  : text + (list (option Transaction) * list text * list text) :=
  match order with
  | [] => inr (results, cats, pays)
  | idx :: order' =>
      match outcome idx with
      | inl msg => inl msg
      | inr txn =>
          let '(cats', pays') := aggregate txn cats pays in
          collect_results outcome order' (<[idx := Some txn]> results) cats' pays'
      end
  end.

(** The statements on the job row that can raise: the [in_progress]
    update and its commit (before the inner [try]), the [completed] update
    (its last statement), the [error] update of the [except] clause and
    the final commit. *)
Inductive db_step := DbSetInProgress | DbCommitStart | DbSetCompleted | DbSetError | DbCommitEnd.

Section Runner.

Variable input_key output_key : text.
(** [pd.read_csv(...)] of the downloaded bytes. *)
Variable read_csv : text -> text + list row.
(** The per-row outcome of [agent.parse_transaction] (row index, row). *)
Variable outcome : nat -> row -> text + Transaction.
(** Completion order of the row futures. *)
Variable order : list nat.
(** [pd.DataFrame(results).to_csv(index=False)] *)
Variable to_csv : list (option Transaction) -> text.
(** [put_object] failures: [Some msg] when the upload of [data] raises. *)
Variable put_error : text -> text -> option text.
(** [utcnow_iso()] *)
Variable now : text.
(** The exception, if any, each job-row statement raises in this run. *)
Variable db_error : db_step -> option text.

Definition get_file (key : text) : M text :=
  fun w => match dict_get (bucket w) key with
           | Some d => (w, inr d)
           | None => (w, inl (txt "NoSuchKey"))
           end.

Definition save_file (key data : text) : M unit :=
  fun w => match put_error key data with
           | Some msg => (w, inl msg)
           | None => (set_object key data w, inr tt)
           end.

(** The body of the inner [try] of [run_job]. *)
Definition run_body : M unit :=
  input_data <- get_file input_key ;;
  data_frame <- lift (read_csv input_data) ;;
  cats <- gets (fun w => default [] (cats_file w)) ;;
  pays <- gets (fun w => default [] (pays_file w)) ;;
  let n := length data_frame in
  let results := replicate n None in
  let row_outcome (i : nat) := outcome i (default [] (data_frame !! i)) in
  res <- lift (collect_results row_outcome order results cats pays) ;;
  let '(results', cats', pays') := res in
  modify (set_cats cats') ;;;
  modify (set_pays pays') ;;;
  save_file output_key (to_csv results') ;;;
  modify (set_finished Completed now None).

(** [JobRunner.run_job]: the updates of the job row themselves are taken
    to succeed. *)
Definition run_job (w : world) : world :=
  let w1 := set_status InProgress w in
  match run_body w1 with
  | (w2, inr _) => w2
  | (w2, inl msg) => set_finished Failed now (Some msg) w2
  end.

(** The job row as last committed ([w0]'s), the files and the bucket as
    in [w]. *)
Definition restore_row (w0 w : world) : world :=
  mkWorld (job_status w0) (job_completed_at w0) (job_error w0) (cats_file w) (pays_file w) (bucket w).

(** [JobRunner.run_job] with its job-row statements allowed to raise: an
    update becomes visible at the next commit, and an exception raised
    outside the inner [try] escapes [run_job] (the second component) after
    [session.close()], which drops the uncommitted update.  The world
    [run_body] ends in already carries the [completed] update: where that
    update is not committed, [restore_row] puts the row back. *)
Definition run_job_db (w : world) : world * option text :=
  match db_error DbSetInProgress with
  | Some e => (w, Some e)
  | None =>
      match db_error DbCommitStart with
      | Some e => (w, Some e)
      | None =>
          let w1 := set_status InProgress w in
          let except (w2 : world) (msg : text) : world * option text :=
            match db_error DbSetError with
            | Some e => (restore_row w1 w2, Some e)
            | None =>
                match db_error DbCommitEnd with
                | Some e => (restore_row w1 w2, Some e)
                | None => (set_finished Failed now (Some msg) w2, None)
                end
            end in
          match run_body w1 with
          | (w2, inl msg) => except w2 msg
          | (w2, inr _) =>
              match db_error DbSetCompleted with
              | Some e => except w2 e
              | None =>
                  match db_error DbCommitEnd with
                  | Some e => (restore_row w1 w2, Some e)
                  | None => (w2, None)
                  end
              end
          end
      end
  end.

End Runner.

(* ================================================================== *)
(** ** Uploads and downloads ([save_upload_file] in
       [app/services/file_service.py], [download] in [app/api/routes.py]) *)

(** The S3 keys [save_upload_file] derives from the job id
    [str(uuid.uuid4())]. *)
Definition job_in_key (job_id : text) : text := txt "jobs/" ++ job_id ++ txt ".csv".
Definition job_out_key (job_id : text) : text := txt "jobs/" ++ job_id ++ txt "_out.csv".

(** [save_upload_file]: [upload_fileobj(in_key, data)] (a [put_object]),
    then the job id and both keys. *)
Definition save_upload_file (put_error : text -> text -> option text) (job_id data : text)
  : M (text * text * text) :=
  save_file put_error (job_in_key job_id) data ;;;
  ret (job_id, job_in_key job_id, job_out_key job_id).

Inductive response := HttpError (status : N) (detail : text) | HttpOk (body : text).

(** The [download(job_id)] route, given what [db.get_job_output_path(job_id)]
    returned. *)
Definition download (out_path : option text) (w : world) : response :=
  match out_path with
  | None => HttpError 404 (txt "Job not found")
  | Some out_key =>
      if negb (truthy out_key) then HttpError 404 (txt "Job not found")
      else match get_file out_key w with
           | (_, inr data) => HttpOk data
           | (_, inl _) => HttpError 404 (txt "Output file missing in S3")
           end
  end.

(* ================================================================== *)
(** ** Auxiliary predicates and concrete inputs *)

(** A candidate [json.loads] rejects with [json.JSONDecodeError]. *)
Definition undecodable (c : text) : Prop := json_loads c = inl DecodeError.

(** The inputs of the concrete checks below. *)
Definition raw_acme : text :=
  jtxt "{'date': '2024-01-31', 'payee': 'Acme Corp.', 'notes': null, 'category': 'Food', 'amount': 12}".

Definition kv_acme : list (text * json) :=
  [(k_date, JStr (txt "2024-01-31")); (k_payee, JStr (txt "Acme Corp.")); (k_notes, JNull);
   (k_category, JStr (txt "Food")); (k_amount, JInt 12)].

Definition raw_inf : text :=
  jtxt "{'date': '2024-01-31', 'payee': 'ACME', 'notes': '', 'category': 'FOOD', 'amount': 'inf'}".

Definition raw_missing : text :=
  txt "{not json} " ++ jtxt "{'date': '2024-01-31', 'payee': 'ACME', 'notes': ''} {'date': 'x', 'payee': 'y', 'notes': '', 'category': '', 'amount': 1}"
  ++ [10] ++ txt "2024-01-31,ACME,,FOOD,10".

Ltac present_fields := repeat constructor; vm_compute; discriminate.

(** A candidate holding an integer literal of 4301 digits, one more than
    [sys.get_int_max_str_digits()], followed by a well-formed CSV line. *)
Definition c_bigint : text := jtxt "{'x': " ++ repeat 49 4301%nat ++ txt "}".

Definition raw_bigint : text := c_bigint ++ [10] ++ txt "2024-01-01,ACME,,FOOD,10".

(** Substring tests on [text]: [prefixb p s] when [p] begins [s],
    [infixb p s] when [p] occurs in [s]. *)
Fixpoint prefixb (p s : text) : bool :=
  match p, s with
  | [], _ => true
  | _ :: _, [] => false
  | a :: p', b :: s' => (a =? b) && prefixb p' s'
  end.

Fixpoint infixb (p s : text) : bool :=
  prefixb p s || match s with [] => false | _ :: s' => infixb p s' end.

(** A text free of the LIKE metacharacters ['%'], ['_'] and backslash. *)
Definition like_plain (p : text) : bool :=
  forallb (fun c => negb ((c =? 37) || (c =? 95) || (c =? 92))) p.

(** Every row of the memory has a non-empty category. *)
Definition categories_nonempty (mem : memory) : Prop := Forall (fun e => truthy (snd e) = true) mem.

Definition mem_acme : memory := [(txt "ACME CORP", txt "BILLS")].

Definition mem_food : memory := [(txt "ACME CORP.", txt "FOOD")].

(** Case tables on ASCII and Latin-1 (up to U+00FF): Python's
    [str.upper()], with U+00DF upper-cased to ["SS"], U+00B5 to U+039C and
    U+00FF to U+0178; and the database's [lower()]. *)
Definition upper_latin1 (c : code) : code * text :=
  if is_ascii_lower c then (c - 32, [])
  else if c =? 223 then (83, [83])
  else if c =? 181 then (924, [])
  else if c =? 255 then (376, [])
  else if (224 <=? c) && (c <=? 254) && negb (c =? 247) then (c - 32, [])
  else (c, []).

Definition lower_latin1 (c : code) : text :=
  if is_ascii_upper c then [c + 32]
  else if (192 <=? c) && (c <=? 222) && negb (c =? 215) then [c + 32]
  else [c].

(** ["caf\u00e9"] and a memory holding the payee ["CAF\u00c9"]. *)
Definition txt_cafe : text := [99; 97; 102; 233].

Definition mem_cafe : memory := [([67; 65; 70; 201], txt "BAR")].

Definition row_acme : row := [(k_payee, CStr (txt "Acme Corp."))].

(** A model that always answers with [raw_acme]. *)
Definition llm_acme (r : row) (cats pays : list text) : option text := Some raw_acme.

(** The outcome of a run that failed before anything was written: status
    [error] with the message and the timestamp, the bucket and both
    backing files as they were. *)
Definition failed_untouched (now msg : text) (w w' : world) : Prop :=
  job_status w' = Failed /\ job_completed_at w' = Some now /\ job_error w' = Some msg /\
  bucket w' = bucket w /\ cats_file w' = cats_file w /\ pays_file w' = pays_file w.

(** [results[idx] = txn_dict] for the row [idx] normalized to [f idx]. *)
Definition insert_result (f : nat -> Transaction) (acc : list (option Transaction)) (i : nat)
  : list (option Transaction) := <[i := Some (f i)]> acc.

Definition key_in : text := txt "in.csv".
Definition key_out : text := txt "out.csv".
Definition now0 : text := txt "2024-02-01T00:00:00Z".

Definition world0 : world := mkWorld Pending None None None None [(key_in, txt "Data,payee")].

Definition rows3 : list row :=
  [[(k_payee, CStr (txt "a"))]; [(k_payee, CStr (txt "b"))]; [(k_payee, CStr (txt "c"))]].

(** Futures completing in the order rows 3, 1, 2. *)
Definition order3 : list nat := [2; 0; 1]%nat.

Definition read3 (d : text) : text + list row := inr rows3.

(** A run in which the [completed] update of the job row raises. *)
Definition db_fail_completed (s : db_step) : option text :=
  match s with DbSetCompleted => Some (txt "OperationalError") | _ => None end.

(** A normalization that keeps the row's payee and files it under FOOD. *)
Definition norm_food (i : nat) (r : row) : Transaction :=
  mkTransaction (txt "20240131") (py_upper (cell_str (default (CStr []) (dict_get r k_payee))))
                [] (txt "FOOD") (PFin false 12 0).

Definition outcome_food (i : nat) (r : row) : text + Transaction := inr (norm_food i r).

Definition outcome_second_fails (i : nat) (r : row) : text + Transaction :=
  if Nat.eqb i 1 then inl (txt "ValueError") else inr (norm_food i r).

Definition csv_of (rs : list (option Transaction)) : text :=
  flat_map (fun o => match o with Some t => payee t ++ [10] | None => [10] end) rs.

Definition put_ok (k d : text) : option text := None.
Definition put_denied (k d : text) : option text := Some (txt "AccessDenied").

(** The line [','.join(fields)]. *)
Fixpoint join_csv (fs : list text) : text :=
  match fs with
  | [] => []
  | [f] => f
  | f :: fs' => f ++ 44 :: join_csv fs'
  end.

(** A character [csv.reader] takes literally: no comma, double quote,
    carriage return or line feed. *)
Definition csv_plain_char (c : code) : bool := negb ((c =? 44) || (c =? 34) || is_crlf c).

(** A field written as it is, within the field size limit. *)
Definition csv_plain_field (f : text) : bool :=
  forallb csv_plain_char f && (N.of_nat (length f) <=? field_limit).

(** A line of 131073 letters, one more than the field size limit. *)
Definition long_line : text := N.iter 131073 (cons 65) [].

(* ================================================================== *)
(** ** Sanity checks of the embedding on concrete inputs *)

Example py_float_inf : py_float_of_text (txt " -Infinity ") = Some (PInf true).
Proof. reflexivity. Qed.

Example py_float_big : py_float_of_text (txt "1e400") = Some (PInf false).
Proof. vm_compute. reflexivity. Qed.

Example py_float_bad : py_float_of_text (txt "1e") = None.
Proof. reflexivity. Qed.

Example json_loads_obj :
  json_loads (jtxt "{'a': [1, -2.5e1], 'b': null, 'a': 'x\u00e9\ud83d\ude00'}")
  = inr (JObj [(txt "a", JStr [120; 233; 128512]); (txt "b", JNull)]).
Proof. vm_compute. reflexivity. Qed.

Example json_loads_leading_zero : json_loads (jtxt "{'a': 01}") = inl DecodeError.
Proof. vm_compute. reflexivity. Qed.

Example find_candidates_ex :
  find_candidates (txt "x {a{b} c} {d") = [txt "{a{b}"].
Proof. reflexivity. Qed.

Example csv_read_line_ex :
  csv_read_line (jtxt "2024-01-01,'Acme, Inc','say ''hi''',,-12.5")
  = Some [txt "2024-01-01"; txt "Acme, Inc"; jtxt "say 'hi'"; []; txt "-12.5"].
Proof. reflexivity. Qed.

Example extract_json_ex :
  extract nfkd_below_a0 py_str_scalar
    (jtxt "Sure: {'date': '2024-01-31', 'payee': 'Acme Corp.', 'notes': null, 'category': 'Food', 'amount': '-12.5'} done")
  = inr (mkTransaction (txt "20240131") (txt "ACME CORP") [] (txt "FOOD") (PFin true 125 (-1))).
Proof. vm_compute. reflexivity. Qed.

Example extract_csv_ex :
  extract nfkd_below_a0 py_str_scalar
    (txt "Here you go:" ++ [10] ++ txt "2024-01-31,Acme Corp.,x,Food,-12.5" ++ [13; 10] ++ txt "  ")
  = inr (mkTransaction (txt "2024-01-31") (txt "Acme Corp.") (txt "x") (txt "Food") (PFin true 125 (-1))).
Proof. vm_compute. reflexivity. Qed.

Example py_float_dec : py_float_of_text (txt "1_000.50") = Some (PFin false 100050 (-2)).
Proof. reflexivity. Qed.

Example py_float_max : py_float_of_text (txt "1.7976931348623157e308") = Some (PFin false 17976931348623157 292).
Proof. vm_compute. reflexivity. Qed.

Example py_float_bad2 : py_float_of_text (txt "1__0") = None.
Proof. reflexivity. Qed.

Example json_loads_trailing_comma : json_loads (jtxt "{'a': 1,}") = inl DecodeError.
Proof. vm_compute. reflexivity. Qed.

Example csv_read_line_open_quote : csv_read_line (jtxt "a,'b") = Some [txt "a"; txt "b"].
Proof. reflexivity. Qed.

(* ================================================================== *)
(** ** The response extractor: properties *)

Section ExtractorFacts.

Variable nfkd_char : code -> text.
Variable py_str : json -> text.

Lemma try_candidates_skip (pre rest : list text) :
  Forall undecodable pre ->
  try_candidates nfkd_char py_str (pre ++ rest) = try_candidates nfkd_char py_str rest.
Proof.
  induction 1 as [|x pre Hx _ IH]; [reflexivity|].
  simpl. unfold undecodable in Hx. rewrite Hx. exact IH.
Qed.

Lemma extract_json_nonempty (raw : text) (ms : list text) :
  find_candidates raw = ms -> ms <> [] ->
  extract_and_normalize_json nfkd_char py_str raw = try_candidates nfkd_char py_str ms.
Proof.
  intros H Hne. unfold extract_and_normalize_json. rewrite H.
  destruct ms; [congruence|reflexivity].
Qed.

(** The first candidate [json.loads] accepts decides the extraction. *)
Lemma extract_first_decoded (raw c : text) (pre post : list text) (v : json) :
  find_candidates raw = pre ++ c :: post ->
  Forall undecodable pre ->
  json_loads c = inr v ->
  extract nfkd_char py_str raw =
    match normalize_parsed nfkd_char py_str v with inl e => inl e | inr t => inr t end.
Proof.
  intros Hc Hpre Hv. unfold extract.
  rewrite (extract_json_nonempty raw (pre ++ c :: post) Hc) by (destruct pre; discriminate).
  rewrite try_candidates_skip by exact Hpre. simpl. rewrite Hv.
  destruct (normalize_parsed nfkd_char py_str v); reflexivity.
Qed.

Lemma first_missing_none (d : list (text * json)) (fs : list text) :
  first_missing d fs = None <-> Forall (fun f => dict_get d f <> None) fs.
Proof.
  induction fs as [|f fs IH]; simpl.
  - split; auto.
  - destruct (dict_get d f) eqn:E; split; intros H.
    + constructor; [congruence|]. apply IH, H.
    + inversion H; subst. apply IH; assumption.
    + discriminate.
    + inversion H; congruence.
Qed.

Lemma first_missing_some (d : list (text * json)) (fs : list text) (f : text) :
  first_missing d fs = Some f -> In f fs /\ dict_get d f = None.
Proof.
  induction fs as [|g fs IH]; simpl; [discriminate|].
  destruct (dict_get d g) eqn:E; intros H.
  - destruct (IH H). auto.
  - injection H as <-. auto.
Qed.

Lemma sanitize_kept (t : text) : Forall (fun c => is_kept c = true) (sanitize nfkd_char t).
Proof. unfold sanitize. apply List.Forall_forall. intros c Hc. apply filter_In in Hc. apply Hc. Qed.

Lemma sanitize_nil : sanitize nfkd_char [] = [].
Proof. reflexivity. Qed.

End ExtractorFacts.

(** The record the JSON path builds from a decoded object whose five keys
    are present. *)
Lemma normalize_parsed_fields (nfkd_char : code -> text) (py_str : json -> text)
    (kv : list (text * json)) :
  Forall (fun f => dict_get kv f <> None) required_fields ->
  normalize_parsed nfkd_char py_str (JObj kv) =
    match py_float_of_json (json_field kv k_amount) with
    | Some a =>
        inr (mkTransaction
               (sanitize nfkd_char (to_py_str py_str (json_field kv k_date)))
               (sanitize nfkd_char (to_py_str py_str (json_field kv k_payee)))
               (sanitize nfkd_char (to_py_str py_str (null_to_empty (json_field kv k_notes))))
               (sanitize nfkd_char (to_py_str py_str (null_to_empty (json_field kv k_category))))
               a)
    | None => inl AmountNotFloat
    end.
Proof.
  intros Hall. cbv beta iota zeta delta [normalize_parsed].
  rewrite (proj2 (first_missing_none kv required_fields) Hall).
  destruct (py_float_of_json (json_field kv k_amount)); reflexivity.
Qed.

Lemma normalize_parsed_inr (nfkd_char : code -> text) (py_str : json -> text) (v : json) (t : Transaction) :
  normalize_parsed nfkd_char py_str v = inr t ->
  let d := match v with JObj kv => kv | _ => [] end in
  date t = sanitize nfkd_char (to_py_str py_str (json_field d k_date)) /\
  payee t = sanitize nfkd_char (to_py_str py_str (json_field d k_payee)) /\
  notes t = sanitize nfkd_char (to_py_str py_str (null_to_empty (json_field d k_notes))) /\
  category t = sanitize nfkd_char (to_py_str py_str (null_to_empty (json_field d k_category))) /\
  py_float_of_json (json_field d k_amount) = Some (amount t).
Proof.
  cbv beta iota zeta delta [normalize_parsed].
  destruct (first_missing _ required_fields); [discriminate|].
  destruct (py_float_of_json _) eqn:E; [|discriminate].
  intros H. injection H as <-. simpl. auto.
Qed.

Lemma try_candidates_some (nfkd_char : code -> text) (py_str : json -> text)
    (cs : list text) (t : Transaction) :
  try_candidates nfkd_char py_str cs = inr (Some t) ->
  exists v, normalize_parsed nfkd_char py_str v = inr t.
Proof.
  induction cs as [|c cs IH]; simpl; [discriminate|].
  destruct (json_loads c) as [[]|v]; auto; [discriminate|].
  destruct (normalize_parsed nfkd_char py_str v) eqn:E; [discriminate|].
  intros H. injection H as ->. eauto.
Qed.


(** C1 (amended).  For a model text whose only brace-delimited candidate
    decodes to a JSON object holding the five keys, the extractor returns
    the record whose [date], [payee], [notes] and [category] are the
    sanitized [str()] of the JSON values, a null [notes] or [category]
    being replaced by the empty string first, and whose [amount] is
    [float()] of the JSON amount; it fails when that amount does not
    coerce. *)
Theorem C1_json_fields_sanitized (nfkd_char : code -> text) (py_str : json -> text)
    (raw c : text) (kv : list (text * json)) :
  find_candidates raw = [c] ->
  json_loads c = inr (JObj kv) ->
  Forall (fun f => dict_get kv f <> None) required_fields ->
  extract nfkd_char py_str raw =
    match py_float_of_json (json_field kv k_amount) with
    | Some a =>
        inr (mkTransaction
               (sanitize nfkd_char (to_py_str py_str (json_field kv k_date)))
               (sanitize nfkd_char (to_py_str py_str (json_field kv k_payee)))
               (sanitize nfkd_char (to_py_str py_str (null_to_empty (json_field kv k_notes))))
               (sanitize nfkd_char (to_py_str py_str (null_to_empty (json_field kv k_category))))
               a)
    | None => inl AmountNotFloat
    end.
Proof.
  intros Hc Hv Hall.
  rewrite (extract_first_decoded nfkd_char py_str raw c [] [] (JObj kv) Hc (List.Forall_nil _) Hv).
  rewrite normalize_parsed_fields by exact Hall.
  destruct (py_float_of_json (json_field kv k_amount)); reflexivity.
Qed.

Lemma C1_json_fields_sanitized_witness :
  find_candidates raw_acme = [raw_acme] /\
  json_loads raw_acme = inr (JObj kv_acme) /\
  Forall (fun f => dict_get kv_acme f <> None) required_fields /\
  extract nfkd_below_a0 py_str_scalar raw_acme =
    inr (mkTransaction (txt "20240131") (txt "ACME CORP") [] (txt "FOOD") (PFin false 12 0)).
Proof.
  assert (H1 : find_candidates raw_acme = [raw_acme]) by (vm_compute; reflexivity).
  assert (H2 : json_loads raw_acme = inr (JObj kv_acme)) by (vm_compute; reflexivity).
  assert (H3 : Forall (fun f => dict_get kv_acme f <> None) required_fields) by present_fields.
  refine (conj H1 (conj H2 (conj H3 _))).
  rewrite (C1_json_fields_sanitized nfkd_below_a0 py_str_scalar raw_acme raw_acme kv_acme H1 H2 H3).
  vm_compute. reflexivity.
Defined.

(** C1 fails as stated: for a text holding exactly one JSON object with
    the five keys, the date ['2024-01-31'] and the payee ['Acme Corp.']
    come back as ["20240131"] and ["ACME CORP"].  (The input is ASCII,
    which NFKD leaves unchanged.) *)
Lemma C1_counterexample :
  find_candidates raw_acme = [raw_acme] /\
  json_loads raw_acme = inr (JObj kv_acme) /\
  exists t, extract nfkd_below_a0 py_str_scalar raw_acme = inr t /\
            date t <> txt "2024-01-31" /\ payee t <> txt "Acme Corp.".
Proof.
  split; [vm_compute; reflexivity|]. split; [vm_compute; reflexivity|].
  eexists. split; [vm_compute; reflexivity|]. split; vm_compute; discriminate.
Qed.

(** C2.  When the first candidate that [json.loads] decodes lacks one of
    the five required keys, the extractor fails with [MissingField] for
    that key: no default is substituted, the later candidates and the CSV
    fallback are not used. *)
Theorem C2_missing_key_fatal (nfkd_char : code -> text) (py_str : json -> text)
    (raw c : text) (pre post : list text) (kv : list (text * json)) :
  find_candidates raw = pre ++ c :: post ->
  Forall undecodable pre ->
  json_loads c = inr (JObj kv) ->
  Exists (fun f => dict_get kv f = None) required_fields ->
  exists f, In f required_fields /\ dict_get kv f = None /\
            extract nfkd_char py_str raw = inl (MissingField f).
Proof.
  intros Hc Hpre Hv Hmiss.
  rewrite (extract_first_decoded nfkd_char py_str raw c pre post (JObj kv) Hc Hpre Hv).
  unfold normalize_parsed.
  destruct (first_missing kv required_fields) as [f|] eqn:E.
  - destruct (first_missing_some _ _ _ E) as [Hin Hnone]. eauto.
  - exfalso. apply first_missing_none in E.
    apply List.Exists_exists in Hmiss as [f [Hin Hf]].
    rewrite List.Forall_forall in E. exact (E f Hin Hf).
Qed.

Lemma C2_missing_key_fatal_witness :
  find_candidates raw_missing =
    [txt "{not json}"] ++
    jtxt "{'date': '2024-01-31', 'payee': 'ACME', 'notes': ''}" ::
    [jtxt "{'date': 'x', 'payee': 'y', 'notes': '', 'category': '', 'amount': 1}"] /\
  Forall undecodable [txt "{not json}"] /\
  json_loads (jtxt "{'date': '2024-01-31', 'payee': 'ACME', 'notes': ''}") =
    inr (JObj [(k_date, JStr (txt "2024-01-31")); (k_payee, JStr (txt "ACME")); (k_notes, JStr [])]) /\
  Exists (fun f => dict_get [(k_date, JStr (txt "2024-01-31")); (k_payee, JStr (txt "ACME")); (k_notes, JStr [])] f = None)
    required_fields /\
  extract nfkd_below_a0 py_str_scalar raw_missing = inl (MissingField k_category).
Proof.
  assert (H1 : find_candidates raw_missing =
    [txt "{not json}"] ++
    jtxt "{'date': '2024-01-31', 'payee': 'ACME', 'notes': ''}" ::
    [jtxt "{'date': 'x', 'payee': 'y', 'notes': '', 'category': '', 'amount': 1}"])
    by (vm_compute; reflexivity).
  assert (H2 : Forall undecodable [txt "{not json}"])
    by (constructor; [vm_compute; reflexivity | constructor]).
  assert (H3 : json_loads (jtxt "{'date': '2024-01-31', 'payee': 'ACME', 'notes': ''}") =
    inr (JObj [(k_date, JStr (txt "2024-01-31")); (k_payee, JStr (txt "ACME")); (k_notes, JStr [])]))
    by (vm_compute; reflexivity).
  assert (H4 : Exists (fun f => dict_get [(k_date, JStr (txt "2024-01-31")); (k_payee, JStr (txt "ACME")); (k_notes, JStr [])] f = None)
    required_fields)
    by (do 3 apply List.Exists_cons_tl; apply List.Exists_cons_hd; vm_compute; reflexivity).
  refine (conj H1 (conj H2 (conj H3 (conj H4 _)))).
  destruct (C2_missing_key_fatal nfkd_below_a0 py_str_scalar raw_missing _ _ _ _ H1 H2 H3 H4)
    as [f [Hin [Hnone He]]].
  rewrite He. vm_compute in Hin.
  destruct Hin as [<-|[<-|[<-|[<-|[<-|[]]]]]]; vm_compute in Hnone; try discriminate; reflexivity.
Defined.

(** C9 (amended).  Once the first decoded candidate holds the five keys,
    an amount that Python's [float()] cannot coerce (null, a list, a
    non-numeric string, an integer too large for a float) fails the row,
    and any other amount becomes the record's amount as [float()] returns
    it, an infinity or NaN included. *)
Theorem C9_amount_coercion (nfkd_char : code -> text) (py_str : json -> text)
    (raw c : text) (pre post : list text) (kv : list (text * json)) :
  find_candidates raw = pre ++ c :: post ->
  Forall undecodable pre ->
  json_loads c = inr (JObj kv) ->
  Forall (fun f => dict_get kv f <> None) required_fields ->
  (py_float_of_json (json_field kv k_amount) = None ->
     extract nfkd_char py_str raw = inl AmountNotFloat) /\
  (forall a, py_float_of_json (json_field kv k_amount) = Some a ->
     exists t, extract nfkd_char py_str raw = inr t /\ amount t = a).
Proof.
  intros Hc Hpre Hv Hall.
  rewrite (extract_first_decoded nfkd_char py_str raw c pre post (JObj kv) Hc Hpre Hv).
  rewrite normalize_parsed_fields by exact Hall.
  split.
  - intros ->. reflexivity.
  - intros a ->. eexists. split; reflexivity.
Qed.

Lemma C9_amount_coercion_witness :
  find_candidates raw_inf = [] ++ raw_inf :: [] /\
  Forall undecodable [] /\
  json_loads raw_inf =
    inr (JObj [(k_date, JStr (txt "2024-01-31")); (k_payee, JStr (txt "ACME")); (k_notes, JStr []);
               (k_category, JStr (txt "FOOD")); (k_amount, JStr (txt "inf"))]) /\
  Forall (fun f => dict_get [(k_date, JStr (txt "2024-01-31")); (k_payee, JStr (txt "ACME")); (k_notes, JStr []);
               (k_category, JStr (txt "FOOD")); (k_amount, JStr (txt "inf"))] f <> None) required_fields /\
  exists t, extract nfkd_below_a0 py_str_scalar raw_inf = inr t /\ amount t = PInf false.
Proof.
  assert (H1 : find_candidates raw_inf = [] ++ raw_inf :: []) by (vm_compute; reflexivity).
  assert (H2 : Forall undecodable []) by constructor.
  assert (H3 : json_loads raw_inf =
    inr (JObj [(k_date, JStr (txt "2024-01-31")); (k_payee, JStr (txt "ACME")); (k_notes, JStr []);
               (k_category, JStr (txt "FOOD")); (k_amount, JStr (txt "inf"))])) by (vm_compute; reflexivity).
  assert (H4 : Forall (fun f => dict_get [(k_date, JStr (txt "2024-01-31")); (k_payee, JStr (txt "ACME")); (k_notes, JStr []);
               (k_category, JStr (txt "FOOD")); (k_amount, JStr (txt "inf"))] f <> None) required_fields)
    by present_fields.
  refine (conj H1 (conj H2 (conj H3 (conj H4 _)))).
  apply (proj2 (C9_amount_coercion nfkd_below_a0 py_str_scalar raw_inf raw_inf [] [] _ H1 H2 H3 H4)).
  vm_compute. reflexivity.
Defined.

(** C9 fails as stated: the amount ['inf'] coerces to an infinite float and
    the row is accepted instead of failing. *)
Lemma C9_counterexample :
  exists t, extract nfkd_below_a0 py_str_scalar raw_inf = inr t /\
            amount t = PInf false /\ is_finite (amount t) = false.
Proof. eexists. split; [vm_compute; reflexivity|]. split; reflexivity. Qed.

(** C10.  Every record of the JSON path has its [date], [payee], [notes]
    and [category] sanitized (no setting switches this off), so they hold
    only [A-Z], [0-9] and spaces; every record of the CSV fallback carries
    the fields of the last non-empty line exactly as [csv.reader] splits
    them, without sanitization. *)
Theorem C10_json_sanitized_csv_verbatim (nfkd_char : code -> text) (py_str : json -> text)
    (raw : text) (t : Transaction) :
  (extract_and_normalize_json nfkd_char py_str raw = inr (Some t) ->
     extract nfkd_char py_str raw = inr t /\
     exists d,
       date t = sanitize nfkd_char (to_py_str py_str (json_field d k_date)) /\
       payee t = sanitize nfkd_char (to_py_str py_str (json_field d k_payee)) /\
       notes t = sanitize nfkd_char (to_py_str py_str (null_to_empty (json_field d k_notes))) /\
       category t = sanitize nfkd_char (to_py_str py_str (null_to_empty (json_field d k_category))) /\
       Forall (fun ch => is_kept ch = true) (date t ++ payee t ++ notes t ++ category t)) /\
  (extract_and_normalize_json nfkd_char py_str raw = inr None ->
     extract nfkd_char py_str raw = inr t ->
     exists line d p n c a,
       last (nonempty_lines raw) = Some line /\
       csv_read_line line = Some [d; p; n; c; a] /\
       date t = d /\ payee t = p /\ notes t = n /\ category t = c).
Proof.
  split.
  - intros H. split; [unfold extract; rewrite H; reflexivity|].
    unfold extract_and_normalize_json in H.
    assert (Hs : exists v, normalize_parsed nfkd_char py_str v = inr t).
    { destruct (find_candidates raw); [discriminate|]. eapply try_candidates_some; exact H. }
    destruct Hs as [v Hv].
    destruct (normalize_parsed_inr nfkd_char py_str v t Hv) as (Hd & Hp & Hn & Hc & _).
    eexists. split; [exact Hd|]. split; [exact Hp|]. split; [exact Hn|]. split; [exact Hc|].
    rewrite Hd, Hp, Hn, Hc. rewrite !List.Forall_app. repeat split; apply sanitize_kept.
  - intros H. unfold extract. rewrite H. unfold parse_csv_fallback.
    destruct (last (nonempty_lines raw)) as [line|]; [|discriminate].
    destruct (csv_read_line line) as [fields|] eqn:Hf; [|discriminate].
    destruct fields as [|d [|p [|n [|c [|a [|]]]]]]; try discriminate.
    destruct (py_float_of_text a); [|discriminate].
    intros He. injection He as <-. exists line, d, p, n, c, a. simpl. repeat split; assumption.
Qed.

Lemma C10_json_sanitized_csv_verbatim_witness :
  extract nfkd_below_a0 py_str_scalar raw_acme =
    inr (mkTransaction (txt "20240131") (txt "ACME CORP") [] (txt "FOOD") (PFin false 12 0)) /\
  exists line d p n c a,
    last (nonempty_lines (txt "ok:" ++ [10] ++ txt "2024-01-31,Acme Corp.,x,Food,-12.5")) = Some line /\
    csv_read_line line = Some [d; p; n; c; a] /\
    d = txt "2024-01-31" /\ p = txt "Acme Corp." /\ n = txt "x" /\ c = txt "Food".
Proof.
  split.
  - apply (fun H => proj1 (proj1 (C10_json_sanitized_csv_verbatim nfkd_below_a0 py_str_scalar raw_acme
      (mkTransaction (txt "20240131") (txt "ACME CORP") [] (txt "FOOD") (PFin false 12 0))) H)).
    vm_compute. reflexivity.
  - destruct (proj2 (C10_json_sanitized_csv_verbatim nfkd_below_a0 py_str_scalar
      (txt "ok:" ++ [10] ++ txt "2024-01-31,Acme Corp.,x,Food,-12.5")
      (mkTransaction (txt "2024-01-31") (txt "Acme Corp.") (txt "x") (txt "Food") (PFin true 125 (-1)))))
      as (line & d & p & n & c & a & H1 & H2 & H3 & H4 & H5 & H6);
      [vm_compute; reflexivity | vm_compute; reflexivity |].
    exists line, d, p, n, c, a. simpl in H3, H4, H5, H6. subst. repeat split; assumption.
Defined.

(** When every candidate is rejected with [json.JSONDecodeError] (or there
    is none), the extractor is the CSV fallback. *)
Lemma extract_all_undecodable (nfkd_char : code -> text) (py_str : json -> text) (raw : text) :
  Forall undecodable (find_candidates raw) ->
  extract nfkd_char py_str raw = parse_csv_fallback raw.
Proof.
  intros H. unfold extract, extract_and_normalize_json.
  destruct (find_candidates raw) as [|c cs]; [reflexivity|].
  rewrite <- (app_nil_r (c :: cs)).
  rewrite (try_candidates_skip nfkd_char py_str (c :: cs) [] H). reflexivity.
Qed.

(** C3.  A candidate whose integer literal exceeds the 4300-digit limit
    makes [json.loads] raise a [ValueError] that is not a
    [json.JSONDecodeError]: the candidate does not decode, yet the loop
    does not skip it, and the extractor fails although the CSV fallback
    would produce a record from the last line. *)
Theorem C3_int_limit_not_skipped (nfkd_char : code -> text) (py_str : json -> text) :
  find_candidates raw_bigint = [c_bigint] /\
  json_loads c_bigint = inl IntTooLong /\
  extract nfkd_char py_str raw_bigint = inl JsonValueError /\
  parse_csv_fallback raw_bigint =
    inr (mkTransaction (txt "2024-01-01") (txt "ACME") [] (txt "FOOD") (PFin false 10 0)).
Proof. repeat split; vm_compute; reflexivity. Qed.

(* ================================================================== *)
(** ** The category memory: properties *)

Lemma like_match_any (ts : list like_tok) (s : text) :
  like_match (TAny :: ts) s =
    like_match ts s || match s with [] => false | _ :: s' => like_match (TAny :: ts) s' end.
Proof. destruct s; reflexivity. Qed.

Lemma like_match_lits_any (p s : text) :
  like_match (map TLit p ++ [TAny]) s = prefixb p s.
Proof.
  revert s. induction p as [|a p IH]; intros s.
  - cbn [map app]. induction s as [|b s IHs]; [reflexivity|].
    rewrite like_match_any, IHs. reflexivity.
  - destruct s as [|b s]; [reflexivity|]. cbn [map app like_match prefixb].
    rewrite IH. reflexivity.
Qed.

Lemma like_match_infix (p s : text) :
  like_match (TAny :: map TLit p ++ [TAny]) s = infixb p s.
Proof.
  induction s as [|b s IH]; rewrite like_match_any, like_match_lits_any.
  - destruct p; reflexivity.
  - rewrite IH. reflexivity.
Qed.

Lemma like_tokens_plain (q : text) :
  like_plain q = true -> like_tokens (q ++ [37]) = map TLit q ++ [TAny].
Proof.
  induction q as [|a q IH]; [reflexivity|].
  cbn [like_plain forallb]. intros H. apply andb_prop in H as [Ha Hq].
  cbn [app like_tokens map].
  destruct (a =? 37); [discriminate|]. destruct (a =? 95); [discriminate|].
  destruct (a =? 92); [discriminate|]. rewrite IH by exact Hq. reflexivity.
Qed.

Lemma db_lower_app (lower_char : code -> text) (s t : text) :
  db_lower lower_char (s ++ t) = db_lower lower_char s ++ db_lower lower_char t.
Proof. unfold db_lower. apply flat_map_app. Qed.

(** When the database's [lower()] keeps ['%'] and the query, upper-cased
    and then lower-cased, is free of LIKE metacharacters,
    [lookup_category_in_db] returns the upper-cased category of the first
    row whose lower-cased payee contains it. *)
Lemma lookup_category_infix (upper_char : code -> code * text) (lower_char : code -> text)
    (mem : memory) (p : text) :
  lower_char 37 = [37] ->
  like_plain (db_lower lower_char (str_upper upper_char p)) = true ->
  lookup_category_in_db upper_char lower_char mem p =
    match find (fun '(k, _) => infixb (db_lower lower_char (str_upper upper_char p))
                                      (db_lower lower_char k)) mem with
    | Some (_, c) => Some (str_upper upper_char c)
    | None => None
    end.
Proof.
  intros Hpct Hp. unfold lookup_category_in_db. cbv zeta.
  assert (Hk : forall k, ilike lower_char k ([37] ++ str_upper upper_char p ++ [37]) =
                         infixb (db_lower lower_char (str_upper upper_char p)) (db_lower lower_char k)).
  { intros k. unfold ilike. rewrite !db_lower_app.
    change (db_lower lower_char [37]) with (lower_char 37 ++ []). rewrite Hpct.
    cbn [app like_tokens]. change (37 =? 37) with true. cbv iota.
    rewrite like_tokens_plain by exact Hp.
    apply like_match_infix. }
  induction mem as [|[k c] mem IH]; [reflexivity|].
  cbn [find]. rewrite Hk. destruct (infixb _ _); [reflexivity|exact IH].
Qed.

(** C4 (amended).  When the database's [lower()] keeps ['%'] and the
    query [p], upper-cased by Python and lower-cased by the database, has
    none of the LIKE metacharacters ['%'], ['_'] and backslash, [lookup]
    returns the category, upper-cased by Python, of the first stored row
    (in storage order) whose lower-cased payee CONTAINS the lower-cased
    [p.upper()]; a stored payee that is only contained in the query does
    not match. *)
Theorem C4_lookup_key_contains_query (upper_char : code -> code * text) (lower_char : code -> text)
    (Hpct : lower_char 37 = [37]) (mem : memory) (p : text)
    (Hp : like_plain (db_lower lower_char (str_upper upper_char p)) = true) :
  lookup_category_in_db upper_char lower_char mem p =
    match find (fun '(k, _) => infixb (db_lower lower_char (str_upper upper_char p))
                                      (db_lower lower_char k)) mem with
    | Some (_, c) => Some (str_upper upper_char c)
    | None => None
    end.
Proof. exact (lookup_category_infix upper_char lower_char mem p Hpct Hp). Qed.

Lemma C4_lookup_key_contains_query_witness :
  lower_latin1 37 = [37] /\
  like_plain (db_lower lower_latin1 (str_upper upper_latin1 txt_cafe)) = true /\
  lookup_category_in_db upper_latin1 lower_latin1 mem_cafe txt_cafe = Some (txt "BAR").
Proof.
  split; [reflexivity|]. split; [vm_compute; reflexivity|].
  rewrite (C4_lookup_key_contains_query upper_latin1 lower_latin1 eq_refl mem_cafe txt_cafe)
    by (vm_compute; reflexivity).
  vm_compute. reflexivity.
Defined.

(** C4: a stored payee that is a proper substring of the query is not
    found. *)
Lemma C4_counterexample :
  infixb (txt "ACME") (txt "ACME CORP 123") = true /\
  txt "ACME" <> txt "ACME CORP 123" /\
  lookup_category_in_db upper_latin1 lower_latin1 [(txt "ACME", txt "SHOPPING")] (txt "ACME CORP 123")
    = None.
Proof. split; [vm_compute; reflexivity|]. split; [discriminate|vm_compute; reflexivity]. Qed.

Lemma text_eqb_eq (s t : text) : text_eqb s t = true <-> s = t.
Proof.
  revert t. induction s as [|a s IH]; intros [|b t]; cbn; try (split; congruence).
  unfold code_eqb. rewrite andb_true_iff, IH, N.eqb_eq. split; [intros [-> ->]; reflexivity|].
  intros H. injection H as -> ->. auto.
Qed.

Lemma text_eqb_refl (s : text) : text_eqb s s = true.
Proof. apply text_eqb_eq. reflexivity. Qed.

Lemma add_category_twice (mem : memory) (p c1 c2 : text) :
  add_category_to_db (add_category_to_db mem p c1) p c2 = add_category_to_db mem p c1.
Proof.
  unfold add_category_to_db.
  destruct (existsb (fun '(k, _) => text_eqb k p) mem) eqn:E.
  - rewrite E. reflexivity.
  - rewrite existsb_app. cbn. rewrite text_eqb_refl, orb_true_r. reflexivity.
Qed.

Lemma find_app {A} (f : A -> bool) (l1 l2 : list A) :
  find f (l1 ++ l2) = match find f l1 with Some x => Some x | None => find f l2 end.
Proof. induction l1 as [|x l1 IH]; [reflexivity|]. cbn. destruct (f x); [reflexivity|exact IH]. Qed.

(** With no row found for a payee [p] that its own pattern matches, no
    row has exactly the payee [p]. *)
Lemma lookup_none_not_stored (upper_char : code -> code * text) (lower_char : code -> text)
    (mem : memory) (p : text) :
  lower_char 37 = [37] ->
  like_plain (db_lower lower_char (str_upper upper_char p)) = true ->
  infixb (db_lower lower_char (str_upper upper_char p)) (db_lower lower_char p) = true ->
  lookup_category_in_db upper_char lower_char mem p = None ->
  existsb (fun '(k, _) => text_eqb k p) mem = false.
Proof.
  intros Hpct Hp Hself. rewrite (lookup_category_infix upper_char lower_char mem p Hpct Hp).
  induction mem as [|[k c] mem IH]; [reflexivity|]. cbn.
  destruct (text_eqb k p) eqn:E.
  - apply text_eqb_eq in E. subst k. rewrite Hself. discriminate.
  - destruct (infixb (db_lower lower_char (str_upper upper_char p)) (db_lower lower_char k));
      [discriminate|]. exact IH.
Qed.

Lemma lookup_upper_query (upper_char : code -> code * text) (lower_char : code -> text)
    (mem : memory) (p q : text) :
  str_upper upper_char q = str_upper upper_char p ->
  lookup_category_in_db upper_char lower_char mem q = lookup_category_in_db upper_char lower_char mem p.
Proof. intros H. unfold lookup_category_in_db. rewrite H. reflexivity. Qed.

(** C5 (amended).  [record(p, c)] appends [(p, c)] exactly when no row has
    the payee [p]; a second [record(p, c2)] changes nothing.  A later
    lookup of [p], or of any [q] with [q.upper() = p.upper()], returns
    [c1.upper()] for the first [record(p, c1)] when nothing was found for
    [p] before it, provided the stored payee [p] matches the pattern built
    from [p.upper()] (its lower-casing contains that of [p.upper()]: not
    so for U+00DF, upper-cased to ["SS"]) and that pattern has no LIKE
    metacharacters; otherwise the row found may be an older one whose
    payee contains the query, or none. *)
Theorem C5_record_first_write_wins (upper_char : code -> code * text) (lower_char : code -> text)
    (mem : memory) (p q c1 c2 : text) :
  (existsb (fun '(k, _) => text_eqb k p) mem = false ->
     add_category_to_db mem p c1 = mem ++ [(p, c1)]) /\
  (existsb (fun '(k, _) => text_eqb k p) mem = true -> add_category_to_db mem p c1 = mem) /\
  add_category_to_db (add_category_to_db mem p c1) p c2 = add_category_to_db mem p c1 /\
  (lower_char 37 = [37] ->
   like_plain (db_lower lower_char (str_upper upper_char p)) = true ->
   infixb (db_lower lower_char (str_upper upper_char p)) (db_lower lower_char p) = true ->
   lookup_category_in_db upper_char lower_char mem p = None ->
   str_upper upper_char q = str_upper upper_char p ->
     lookup_category_in_db upper_char lower_char
       (add_category_to_db (add_category_to_db mem p c1) p c2) q = Some (str_upper upper_char c1)).
Proof.
  split; [intros E; unfold add_category_to_db; rewrite E; reflexivity|].
  split; [intros E; unfold add_category_to_db; rewrite E; reflexivity|].
  split; [apply add_category_twice|].
  intros Hpct Hp Hself Hn Hq.
  rewrite add_category_twice, (lookup_upper_query upper_char lower_char _ p q Hq).
  unfold add_category_to_db.
  rewrite (lookup_none_not_stored upper_char lower_char mem p Hpct Hp Hself Hn).
  rewrite (lookup_category_infix upper_char lower_char _ p Hpct Hp).
  rewrite (lookup_category_infix upper_char lower_char mem p Hpct Hp) in Hn.
  rewrite find_app.
  destruct (find (fun '(k, _) => infixb (db_lower lower_char (str_upper upper_char p))
                                        (db_lower lower_char k)) mem)
    as [[k c]|]; [discriminate|].
  cbn. rewrite Hself. reflexivity.
Qed.

Lemma C5_record_first_write_wins_witness :
  lower_latin1 37 = [37] /\
  like_plain (db_lower lower_latin1 (str_upper upper_latin1 (txt "ACME CORP"))) = true /\
  infixb (db_lower lower_latin1 (str_upper upper_latin1 (txt "ACME CORP")))
         (db_lower lower_latin1 (txt "ACME CORP")) = true /\
  lookup_category_in_db upper_latin1 lower_latin1 [] (txt "ACME CORP") = None /\
  str_upper upper_latin1 (txt "acme corp") = str_upper upper_latin1 (txt "ACME CORP") /\
  lookup_category_in_db upper_latin1 lower_latin1
    (add_category_to_db (add_category_to_db [] (txt "ACME CORP") (txt "SHOPPING"))
                        (txt "ACME CORP") (txt "FOOD")) (txt "acme corp") = Some (txt "SHOPPING").
Proof.
  split; [reflexivity|]. split; [vm_compute; reflexivity|]. split; [vm_compute; reflexivity|].
  split; [reflexivity|]. split; [vm_compute; reflexivity|].
  exact (proj2 (proj2 (proj2 (C5_record_first_write_wins upper_latin1 lower_latin1 []
           (txt "ACME CORP") (txt "acme corp") (txt "SHOPPING") (txt "FOOD"))))
           eq_refl eq_refl eq_refl eq_refl eq_refl).
Defined.

(** C5: after [record(ACME, SHOPPING)] and [record(ACME, FOOD)], the lookup
    of [acme] returns the category of an older row whose payee contains
    it; a category recorded in lower case comes back upper-cased; and a
    payee U+00DF, once recorded, is not found by its own lookup (its
    pattern is ['%SS%']). *)
Lemma C5_counterexample :
  add_category_to_db (add_category_to_db mem_acme (txt "ACME") (txt "SHOPPING"))
                     (txt "ACME") (txt "FOOD") = mem_acme ++ [(txt "ACME", txt "SHOPPING")] /\
  lookup_category_in_db upper_latin1 lower_latin1
    (add_category_to_db (add_category_to_db mem_acme (txt "ACME") (txt "SHOPPING"))
                        (txt "ACME") (txt "FOOD")) (txt "acme") = Some (txt "BILLS") /\
  lookup_category_in_db upper_latin1 lower_latin1
    (add_category_to_db [] (txt "ACME CORP") (txt "Shopping")) (txt "acme corp")
    = Some (txt "SHOPPING") /\
  add_category_to_db [] [223] (txt "FOOD") = [([223], txt "FOOD")] /\
  lookup_category_in_db upper_latin1 lower_latin1 [([223], txt "FOOD")] [223] = None.
Proof. repeat split; vm_compute; reflexivity. Qed.

(* ================================================================== *)
(** ** The normalization agent: properties *)

Lemma truthy_str_upper (upper_char : code -> code * text) (c : text) :
  truthy (str_upper upper_char c) = truthy c.
Proof.
  destruct c as [|a c]; [reflexivity|]. unfold str_upper. cbn [flat_map].
  destruct (upper_char a). reflexivity.
Qed.

Lemma lookup_truthy (upper_char : code -> code * text) (lower_char : code -> text)
    (mem : memory) (q c : text) :
  categories_nonempty mem -> lookup_category_in_db upper_char lower_char mem q = Some c ->
  truthy c = true.
Proof.
  intros Hinv. unfold lookup_category_in_db. cbv zeta.
  destruct (find _ mem) as [[k c0]|] eqn:E; [|discriminate].
  intros H. injection H as <-. apply find_some in E as [Hin _].
  rewrite truthy_str_upper. exact (proj1 (List.Forall_forall _ _) Hinv _ Hin).
Qed.

Lemma add_category_nonempty (mem : memory) (p c : text) :
  categories_nonempty mem -> truthy c = true -> categories_nonempty (add_category_to_db mem p c).
Proof.
  intros Hinv Hc. unfold add_category_to_db.
  destruct (existsb _ mem); [exact Hinv|]. apply Forall_app; split; [exact Hinv|].
  constructor; [exact Hc|constructor].
Qed.

(** C6.  With every stored category non-empty (an invariant the agent
    keeps), [parse_transaction] looks up the upper-cased payee hint first.
    On a hit the row's [category] is set to the value found before the
    model is asked, and nothing is recorded; on a miss the model is asked
    with the row as it is, and exactly one [record(hint, category)] follows
    a successful extraction with a non-empty category (none otherwise).
    This holds for any case mappings of Python and of the database. *)
Theorem C6_lookup_then_record (nfkd_char : code -> text) (py_str : json -> text)
    (upper_char : code -> code * text) (lower_char : code -> text)
    (llm : row -> list text -> list text -> option text)
    (mem : memory) (r : row) (cats pays : list text) (Hinv : categories_nonempty mem) :
  (forall c, lookup_category_in_db upper_char lower_char mem (payee_hint upper_char r) = Some c ->
     parse_transaction nfkd_char py_str upper_char lower_char llm mem r cats pays =
       (mem, [], parse_transaction_llm nfkd_char py_str llm (dict_set r k_category (CStr c)) cats pays)) /\
  (lookup_category_in_db upper_char lower_char mem (payee_hint upper_char r) = None ->
     parse_transaction nfkd_char py_str upper_char lower_char llm mem r cats pays =
       match parse_transaction_llm nfkd_char py_str llm r cats pays with
       | inl e => (mem, [], inl e)
       | inr txn =>
           if truthy (category txn)
           then (add_category_to_db mem (payee_hint upper_char r) (category txn),
                 [(payee_hint upper_char r, category txn)], inr txn)
           else (mem, [], inr txn)
       end) /\
  categories_nonempty
    (fst (fst (parse_transaction nfkd_char py_str upper_char lower_char llm mem r cats pays))).
Proof.
  unfold parse_transaction. cbv zeta.
  destruct (lookup_category_in_db upper_char lower_char mem (payee_hint upper_char r)) as [c|] eqn:E.
  - assert (Hc : truthy c = true) by exact (lookup_truthy upper_char lower_char mem _ c Hinv E).
    rewrite Hc. split; [|split].
    + intros c' H. injection H as <-.
      destruct (parse_transaction_llm _ _ _ _ _ _); reflexivity.
    + discriminate.
    + destruct (parse_transaction_llm _ _ _ _ _ _); exact Hinv.
  - split; [discriminate|split].
    + intros _. destruct (parse_transaction_llm _ _ _ _ _ _); reflexivity.
    + destruct (parse_transaction_llm _ _ _ _ _ _) as [e|txn]; [exact Hinv|].
      cbn. destruct (truthy (category txn)) eqn:Ht; [|exact Hinv].
      apply add_category_nonempty; assumption.
Qed.

Lemma C6_lookup_then_record_witness :
  categories_nonempty mem_food /\
  parse_transaction nfkd_below_a0 py_str_scalar upper_latin1 lower_latin1 llm_acme mem_food row_acme [] [] =
    (mem_food, [], parse_transaction_llm nfkd_below_a0 py_str_scalar llm_acme
                     (dict_set row_acme k_category (CStr (txt "FOOD"))) [] []) /\
  categories_nonempty [] /\
  parse_transaction nfkd_below_a0 py_str_scalar upper_latin1 lower_latin1 llm_acme [] row_acme [] [] =
    (add_category_to_db [] (txt "ACME CORP.") (txt "FOOD"),
     [(txt "ACME CORP.", txt "FOOD")],
     inr (mkTransaction (txt "20240131") (txt "ACME CORP") [] (txt "FOOD") (PFin false 12 0))).
Proof.
  assert (H1 : categories_nonempty mem_food) by (repeat constructor).
  assert (H2 : categories_nonempty []) by constructor.
  split; [exact H1|]. split.
  { apply (proj1 (C6_lookup_then_record nfkd_below_a0 py_str_scalar upper_latin1 lower_latin1
                    llm_acme mem_food row_acme [] [] H1)).
    vm_compute. reflexivity. }
  split; [exact H2|].
  rewrite (proj1 (proj2 (C6_lookup_then_record nfkd_below_a0 py_str_scalar upper_latin1 lower_latin1
                           llm_acme [] row_acme [] [] H2)))
    by (vm_compute; reflexivity).
  vm_compute. reflexivity.
Defined.

(* ================================================================== *)
(** ** The batch processor: properties *)

Lemma collect_results_ok (f : nat -> Transaction) (outcome : nat -> text + Transaction)
    (order : list nat) (results : list (option Transaction)) (cats pays : list text) :
  (forall i, In i order -> outcome i = inr (f i)) ->
  exists cats' pays',
    collect_results outcome order results cats pays =
      inr (fold_left (insert_result f) order results, cats', pays').
Proof.
  revert results cats pays. induction order as [|i order IH]; intros results cats pays H.
  - exists cats, pays. reflexivity.
  - cbn. rewrite (H i (or_introl eq_refl)).
    destruct (aggregate (f i) cats pays) as [cats1 pays1].
    apply IH. intros j Hj. apply H. right. exact Hj.
Qed.

Lemma fold_insert_length (f : nat -> Transaction) (order : list nat) (results : list (option Transaction)) :
  length (fold_left (insert_result f) order results) = length results.
Proof.
  revert results. induction order as [|i order IH]; intros results; [reflexivity|].
  cbn. rewrite IH. apply length_insert.
Qed.

Lemma fold_insert_notin (f : nat -> Transaction) (order : list nat) (results : list (option Transaction)) (k : nat) :
  ~ In k order -> fold_left (insert_result f) order results !! k = results !! k.
Proof.
  revert results. induction order as [|i order IH]; intros results Hk; [reflexivity|].
  cbn. rewrite IH by (intros Hin; apply Hk; right; exact Hin).
  unfold insert_result. apply list_lookup_insert_ne. intros ->. apply Hk. left. reflexivity.
Qed.

(** Whatever the order, slot [k] ends up holding the result of row [k]. *)
Lemma fold_insert_in (f : nat -> Transaction) (order : list nat) (results : list (option Transaction)) (k : nat) :
  In k order -> (k < length results)%nat ->
  fold_left (insert_result f) order results !! k = Some (Some (f k)).
Proof.
  revert results. induction order as [|i order IH]; intros results Hin Hk; [destruct Hin|].
  cbn. destruct (in_dec Nat.eq_dec k order) as [Hin'|Hnot].
  - apply IH; [exact Hin'|]. unfold insert_result. rewrite length_insert. exact Hk.
  - rewrite fold_insert_notin by exact Hnot.
    destruct Hin as [->|Hin]; [|contradiction].
    unfold insert_result. apply list_lookup_insert_eq. exact Hk.
Qed.

Lemma dict_get_set_same {V} (d : list (text * V)) (k : text) (v : V) :
  dict_get (dict_set d k v) k = Some v.
Proof.
  induction d as [|[k' v'] d IH]; cbn; [rewrite text_eqb_refl; reflexivity|].
  destruct (text_eqb k k') eqn:E; cbn; [rewrite text_eqb_refl; reflexivity|].
  rewrite E. exact IH.
Qed.

(** C7.  When the input downloads and parses into [n] rows, the futures
    complete in any order (a permutation of the row indices), every row is
    normalized and the upload succeeds, the job completes and the uploaded
    table is [to_csv] of [n] results whose [k]-th is the record of the
    [k]-th input row. *)
Theorem C7_output_in_input_order (input_key output_key : text)
    (read_csv : text -> text + list row) (outcome : nat -> row -> text + Transaction)
    (order : list nat) (to_csv : list (option Transaction) -> text)
    (put_error : text -> text -> option text) (now : text) (w : world)
    (data : text) (rows : list row) (norm : nat -> row -> Transaction)
    (Hin : dict_get (bucket w) input_key = Some data)
    (Hread : read_csv data = inr rows)
    (Hord : Permutation order (seq 0 (length rows)))
    (Hok : forall k r, rows !! k = Some r -> outcome k r = inr (norm k r))
    (Hput : forall d, put_error output_key d = None) :
  let w' := run_job input_key output_key read_csv outcome order to_csv put_error now w in
  job_status w' = Completed /\
  exists results,
    dict_get (bucket w') output_key = Some (to_csv results) /\
    length results = length rows /\
    forall k r, rows !! k = Some r -> results !! k = Some (Some (norm k r)).
Proof.
  set (f := fun i => norm i (default [] (rows !! i))).
  assert (Hf : forall i, In i order -> outcome i (default [] (rows !! i)) = inr (f i)).
  { intros i Hi. apply (Permutation_in _ Hord), in_seq in Hi.
    destruct (lookup_lt_is_Some_2 rows i) as [r Hr]; [lia|].
    unfold f. cbv beta. unfold row in *. rewrite Hr. apply Hok. exact Hr. }
  destruct (collect_results_ok f (fun i => outcome i (default [] (rows !! i))) order
              (replicate (length rows) None) (default [] (cats_file w)) (default [] (pays_file w)) Hf)
    as (cats' & pays' & Hc).
  unfold run_job, run_body, bind, lift, gets, modify, get_file, save_file.
  cbn [bucket cats_file pays_file set_status]. rewrite Hin, Hread. cbv beta iota zeta.
  cbn [bucket cats_file pays_file set_status]. rewrite Hc. rewrite Hput. cbn.
  split; [reflexivity|].
  exists (fold_left (insert_result f) order (replicate (length rows) None)).
  split; [apply dict_get_set_same|].
  split; [rewrite fold_insert_length, length_replicate; reflexivity|].
  intros k r Hr.
  assert (Hk : (k < length rows)%nat) by (apply lookup_lt_Some in Hr; exact Hr).
  rewrite fold_insert_in.
  - unfold f. unfold row in *. rewrite Hr. reflexivity.
  - apply (Permutation_in _ (Permutation_sym Hord)), in_seq. lia.
  - rewrite length_replicate. exact Hk.
Qed.

Lemma C7_output_in_input_order_witness :
  let w' := run_job key_in key_out read3 outcome_food order3 csv_of put_ok now0 world0 in
  job_status w' = Completed /\
  exists results,
    dict_get (bucket w') key_out = Some (csv_of results) /\
    length results = length rows3 /\
    forall k r, rows3 !! k = Some r -> results !! k = Some (Some (norm_food k r)).
Proof.
  apply (C7_output_in_input_order key_in key_out read3 outcome_food order3 csv_of put_ok now0
           world0 (txt "Data,payee") rows3 norm_food).
  - reflexivity.
  - reflexivity.
  - change (seq 0 (length rows3)) with ([0; 1]%nat ++ [2%nat]). apply Permutation_cons_append.
  - intros k r _. reflexivity.
  - intros d. reflexivity.
Defined.

Ltac run_steps :=
  unfold run_job, run_body, bind, lift, gets, modify, get_file, save_file;
  cbn [bucket cats_file pays_file set_status].

(** C8 (amended).  Whatever fails, [run_job] returns with the job in
    [error], the message recorded and the completion timestamp set, and
    nothing uploaded.  A failure of the download, of [read_csv] or of any
    row leaves the backing files as they were; a failure of the upload
    comes after both backing files were overwritten with the aggregated
    lists. *)
Theorem C8_failures (input_key output_key : text)
    (read_csv : text -> text + list row) (outcome : nat -> row -> text + Transaction)
    (order : list nat) (to_csv : list (option Transaction) -> text)
    (put_error : text -> text -> option text) (now : text) (w : world) :
  let w' := run_job input_key output_key read_csv outcome order to_csv put_error now w in
  let cats0 := default [] (cats_file w) in
  let pays0 := default [] (pays_file w) in
  (dict_get (bucket w) input_key = None -> failed_untouched now (txt "NoSuchKey") w w') /\
  (forall data msg, dict_get (bucket w) input_key = Some data -> read_csv data = inl msg ->
     failed_untouched now msg w w') /\
  (forall data rows msg, dict_get (bucket w) input_key = Some data -> read_csv data = inr rows ->
     collect_results (fun i => outcome i (default [] (rows !! i))) order
       (replicate (length rows) None) cats0 pays0 = inl msg ->
     failed_untouched now msg w w') /\
  (forall data rows results cats' pays' msg,
     dict_get (bucket w) input_key = Some data -> read_csv data = inr rows ->
     collect_results (fun i => outcome i (default [] (rows !! i))) order
       (replicate (length rows) None) cats0 pays0 = inr (results, cats', pays') ->
     put_error output_key (to_csv results) = Some msg ->
     job_status w' = Failed /\ job_completed_at w' = Some now /\ job_error w' = Some msg /\
     bucket w' = bucket w /\ cats_file w' = Some cats' /\ pays_file w' = Some pays').
Proof.
  cbv zeta. split; [|split; [|split]].
  - intros Hin. run_steps. rewrite Hin. repeat split.
  - intros data msg Hin Hread. run_steps. rewrite Hin, Hread. repeat split.
  - intros data rows msg Hin Hread Hc. run_steps. rewrite Hin, Hread. cbv beta iota zeta.
    cbn [bucket cats_file pays_file set_status]. rewrite Hc. repeat split.
  - intros data rows results cats' pays' msg Hin Hread Hc Hput. run_steps.
    rewrite Hin, Hread. cbv beta iota zeta.
    cbn [bucket cats_file pays_file set_status]. rewrite Hc, Hput. repeat split.
Qed.

Lemma C8_failures_witness :
  failed_untouched now0 (txt "ValueError") world0
    (run_job key_in key_out read3 outcome_second_fails order3 csv_of put_ok now0 world0) /\
  (let w' := run_job key_in key_out read3 outcome_food order3 csv_of put_denied now0 world0 in
   job_status w' = Failed /\ job_completed_at w' = Some now0 /\
   job_error w' = Some (txt "AccessDenied") /\ bucket w' = bucket world0 /\
   cats_file w' = Some [txt "FOOD"] /\ pays_file w' = Some [txt "C"; txt "A"; txt "B"]).
Proof.
  split.
  - apply (proj1 (proj2 (proj2 (C8_failures key_in key_out read3 outcome_second_fails order3 csv_of
             put_ok now0 world0))) (txt "Data,payee") rows3 (txt "ValueError")).
    + reflexivity.
    + reflexivity.
    + vm_compute. reflexivity.
  - apply (proj2 (proj2 (proj2 (C8_failures key_in key_out read3 outcome_food order3 csv_of
             put_denied now0 world0))) (txt "Data,payee") rows3
             (imap (fun k r => Some (norm_food k r)) rows3) [txt "FOOD"] [txt "C"; txt "A"; txt "B"]
             (txt "AccessDenied")).
    + reflexivity.
    + reflexivity.
    + vm_compute. reflexivity.
    + reflexivity.
Defined.

(** C8: a failed upload leaves the job in [error] with nothing uploaded,
    but the known-categories file, absent before the run, now holds the
    run's categories. *)
Lemma C8_counterexample :
  let w' := run_job key_in key_out read3 outcome_food order3 csv_of put_denied now0 world0 in
  job_status w' = Failed /\ dict_get (bucket w') key_out = None /\
  cats_file world0 = None /\ cats_file w' = Some [txt "FOOD"].
Proof. cbv zeta. repeat split; vm_compute; reflexivity. Qed.

(* ================================================================== *)
(** ** Further properties of the code *)

(** Python dict assignment [d[k] = v] followed by [d[k']]: the new value
    for [k], the old one for any other key; and the keys keep their
    order, a new key going last. *)
Theorem dict_set_get (V : Type) (d : list (text * V)) (k k' : text) (v : V) :
  dict_get (dict_set d k v) k' = (if text_eqb k' k then Some v else dict_get d k') /\
  map fst (dict_set d k v) =
    (if existsb (fun e => text_eqb k (fst e)) d then map fst d else map fst d ++ [k]).
Proof.
  induction d as [|[k1 v1] d IH]; cbn.
  - split; [|reflexivity]. destruct (text_eqb k' k); reflexivity.
  - destruct IH as [IH1 IH2].
    destruct (text_eqb k k1) eqn:E; cbn.
    + apply text_eqb_eq in E. subst k1. split; [|reflexivity].
      destruct (text_eqb k' k); reflexivity.
    + split; [|rewrite IH2; destruct (existsb _ d); reflexivity].
      destruct (text_eqb k' k1) eqn:E1; [|exact IH1].
      apply text_eqb_eq in E1. subst k1.
      destruct (text_eqb k' k) eqn:E2; [|reflexivity].
      apply text_eqb_eq in E2. subst k'. rewrite text_eqb_refl in E. discriminate.
Qed.

Lemma scan_braces_shape (s : text) :
  (forall c, In c (scan_braces None s) ->
     (exists m, c = 123 :: m ++ [125] /\ ~ In 125 m) /\ exists pre post, s = pre ++ c ++ post) /\
  (forall acc a c, rev acc = 123 :: a -> ~ In 125 a -> In c (scan_braces (Some acc) s) ->
     (exists m, c = 123 :: m ++ [125] /\ ~ In 125 m) /\ exists pre post, rev acc ++ s = pre ++ c ++ post).
Proof.
  unfold text, code in *.
  induction s as [|c0 s [IHn IHs]]; [split; [intros c []|intros acc a c _ _ []]|].
  split.
  - intros c Hc. cbn in Hc. destruct (c0 =? 123) eqn:E.
    + apply N.eqb_eq in E. subst c0.
      exact (IHs [123] [] c eq_refl (fun H => H) Hc).
    + destruct (IHn c Hc) as [Hm (pre & post & ->)]. split; [exact Hm|].
      exists (c0 :: pre), post. reflexivity.
  - intros acc a c Ha Hna Hc. cbn in Hc. unfold code in *. destruct (c0 =? 125) eqn:E.
    + apply N.eqb_eq in E. subst c0. destruct Hc as [<-|Hc].
      * split; [exists a; split; [rewrite Ha; reflexivity|exact Hna]|].
        exists [], s. rewrite app_nil_l, <- app_assoc. reflexivity.
      * destruct (IHn c Hc) as [Hm (pre & post & ->)]. split; [exact Hm|].
        exists (rev acc ++ 125 :: pre), post. rewrite <- !app_assoc. reflexivity.
    + assert (Hr : rev (c0 :: acc) = 123 :: (a ++ [c0])) by (cbn [rev]; rewrite Ha; reflexivity).
      destruct (IHs (c0 :: acc) (a ++ [c0]) c Hr) as [Hm (pre & post & Hs)]; [|exact Hc|].
      * intros Hin. apply in_app_or in Hin as [Hin|[Hin|[]]]; [exact (Hna Hin)|].
        subst c0. rewrite N.eqb_refl in E. discriminate.
      * split; [exact Hm|]. exists pre, post. rewrite <- Hs. cbn [rev]. rewrite <- app_assoc. reflexivity.
Qed.

(** [re.finditer(r"\{.*?\}", ...)]: every candidate the extractor tries is
    a piece of the model text that opens with ['{'], closes with the first
    ['}'] after it and has no other ['}'] inside. *)
Theorem find_candidates_shape (raw c : text) :
  In c (find_candidates raw) ->
  (exists m, c = 123 :: m ++ [125] /\ ~ In 125 m) /\ exists pre post, raw = pre ++ c ++ post.
Proof. apply (proj1 (scan_braces_shape raw)). Qed.

Lemma find_candidates_shape_witness :
  In (jtxt "{'a': {'b'}") (find_candidates (jtxt "x {'a': {'b'}} y")) /\
  (exists m, jtxt "{'a': {'b'}" = 123 :: m ++ [125] /\ ~ In 125 m) /\
  exists pre post, jtxt "x {'a': {'b'}} y" = pre ++ jtxt "{'a': {'b'}" ++ post.
Proof.
  assert (H : In (jtxt "{'a': {'b'}") (find_candidates (jtxt "x {'a': {'b'}} y")))
    by (vm_compute; left; reflexivity).
  split; [exact H|]. exact (find_candidates_shape _ _ H).
Defined.

Ltac split_matches H :=
  repeat (match type of H with context [match ?x with _ => _ end] => destruct x end).

Lemma parse_members_obj (fuel : nat) (acc : list (text * json)) (s : text) (v : json) (r : text) :
  parse_members fuel acc s = inr (v, r) -> exists kv, v = JObj kv.
Proof.
  revert acc s. induction fuel as [|f IH]; intros acc s H; [discriminate|].
  cbn [parse_members] in H. cbv zeta in H. split_matches H;
    first [discriminate | injection H as <- _; eauto | exact (IH _ _ H)].
Qed.

(** Every candidate [json.loads] accepts decodes to a JSON object (the
    lookups [data[field]] are always on a dict). *)
Theorem decoded_candidate_is_object (raw c : text) (v : json) :
  In c (find_candidates raw) -> json_loads c = inr v -> exists kv, v = JObj kv.
Proof.
  intros Hin Hv. destruct (proj1 (proj1 (scan_braces_shape raw) c Hin)) as (m & -> & _).
  unfold json_loads in Hv. cbn [skip_ws drop_while] in Hv.
  replace (is_json_ws 123) with false in Hv by reflexivity. cbv iota in Hv.
  match type of Hv with context [parse_value ?n _] => destruct n as [|f] eqn:Hf end; [lia|].
  cbn [parse_value] in Hv.
  destruct (skip_ws (m ++ [125])) as [|c1 r1].
  - destruct (parse_members f [] []) as [e|[v1 r]] eqn:Ep; [discriminate|].
    split_matches Hv; try discriminate. injection Hv as <-. exact (parse_members_obj _ _ _ _ _ Ep).
  - match type of Hv with
    | match ?inner with inl _ => _ | inr _ => _ end = _ =>
        destruct inner as [e|[v1 r]] eqn:Ep; [discriminate|]
    end.
    destruct (skip_ws r); [|discriminate]. injection Hv as <-.
    split_matches Ep;
      first [injection Ep as <- _; eauto | exact (parse_members_obj _ _ _ _ _ Ep)].
Qed.

Lemma decoded_candidate_is_object_witness :
  In raw_acme (find_candidates raw_acme) /\ json_loads raw_acme = inr (JObj kv_acme) /\
  exists kv, JObj kv_acme = JObj kv.
Proof.
  assert (H1 : In raw_acme (find_candidates raw_acme)) by (vm_compute; left; reflexivity).
  assert (H2 : json_loads raw_acme = inr (JObj kv_acme)) by (vm_compute; reflexivity).
  split; [exact H1|]. split; [exact H2|].
  exact (decoded_candidate_is_object raw_acme raw_acme (JObj kv_acme) H1 H2).
Defined.

Lemma try_candidates_none (nfkd_char : code -> text) (py_str : json -> text) (cs : list text) :
  try_candidates nfkd_char py_str cs = inr None <-> Forall undecodable cs.
Proof.
  induction cs as [|c cs IH]; simpl.
  - split; auto.
  - rewrite List.Forall_cons_iff. unfold undecodable at 1.
    destruct (json_loads c) as [[]|v].
    + rewrite IH. split; [intros H; split; [reflexivity|exact H] | intros [_ H]; exact H].
    + split; [discriminate | intros [H _]; discriminate].
    + destruct (normalize_parsed nfkd_char py_str v);
        split; (discriminate || (intros [H _]; discriminate)).
Qed.

(** The JSON path of [_extract_and_normalize_json] yields nothing, so that
    [_parse_transaction] falls back to CSV, exactly when every
    brace-delimited candidate of the model text fails to decode (which
    includes the case of no candidate at all). *)
Theorem extract_json_none_iff (nfkd_char : code -> text) (py_str : json -> text) (raw : text) :
  extract_and_normalize_json nfkd_char py_str raw = inr None <->
  Forall undecodable (find_candidates raw).
Proof.
  unfold extract_and_normalize_json. destruct (find_candidates raw) as [|c cs] eqn:E.
  - split; auto.
  - apply try_candidates_none.
Qed.

(** The sanitizer of the JSON path is idempotent when the decomposition
    table leaves ASCII code points alone: its output consists of
    [A-Z], [0-9] and spaces only, and those pass through every step
    unchanged. *)
Theorem sanitize_idempotent (nfkd_char : code -> text)
    (Hascii : forall c, c < 128 -> nfkd_char c = [c]) (t : text) :
  sanitize nfkd_char (sanitize nfkd_char t) = sanitize nfkd_char t.
Proof.
  pose proof (sanitize_kept nfkd_char t) as Hk.
  remember (sanitize nfkd_char t) as u eqn:Hu. clear Hu.
  unfold sanitize, nfkd.
  induction Hk as [|c u Hc _ IH]; [reflexivity|].
  assert (Hlt : c < 128).
  { unfold is_kept, is_ascii_upper, is_ascii_digit in Hc.
    repeat rewrite orb_true_iff in Hc. repeat rewrite andb_true_iff in Hc.
    rewrite !N.leb_le in Hc. rewrite N.eqb_eq in Hc. lia. }
  cbn [flat_map]. rewrite (Hascii c Hlt). cbn [app List.filter].
  replace (c <? 128) with true by (symmetry; apply N.ltb_lt; exact Hlt).
  cbn [py_upper map List.filter].
  assert (Hup : ascii_upper c = c).
  { unfold ascii_upper, is_ascii_lower.
    unfold is_kept, is_ascii_upper, is_ascii_digit in Hc.
    repeat rewrite orb_true_iff in Hc. repeat rewrite andb_true_iff in Hc.
    rewrite !N.leb_le in Hc. rewrite N.eqb_eq in Hc.
    destruct ((97 <=? c) && (c <=? 122)) eqn:E; [|reflexivity].
    apply andb_true_iff in E. rewrite !N.leb_le in E. lia. }
  rewrite Hup, Hc. f_equal. exact IH.
Qed.

Lemma sanitize_idempotent_witness :
  (forall c, c < 128 -> nfkd_below_a0 c = [c]) /\
  sanitize nfkd_below_a0 (sanitize nfkd_below_a0 (txt "cafe No. 5!")) =
    sanitize nfkd_below_a0 (txt "cafe No. 5!").
Proof.
  assert (H : forall c, c < 128 -> nfkd_below_a0 c = [c]) by (intros; reflexivity).
  split; [exact H|]. exact (sanitize_idempotent nfkd_below_a0 H _).
Defined.

Lemma drop_while_nil (p : code -> bool) (s : text) :
  drop_while p s = [] <-> Forall (fun c => p c = true) s.
Proof.
  induction s as [|c s IH]; simpl; [split; auto|].
  rewrite List.Forall_cons_iff. destruct (p c) eqn:E.
  - rewrite IH. tauto.
  - split; [discriminate | intros [H _]; discriminate].
Qed.

Lemma py_strip_nil (s : text) : py_strip s = [] <-> Forall (fun c => is_py_space c = true) s.
Proof.
  unfold py_strip. split.
  - intros H. apply (f_equal (@rev code)) in H. rewrite rev_involutive in H. simpl in H.
    apply drop_while_nil in H. apply Forall_rev in H. rewrite rev_involutive in H.
    clear -H. induction s as [|c s IH]; [constructor|].
    simpl in H. destruct (is_py_space c) eqn:E.
    + constructor; auto.
    + exact H.
  - intros H. apply drop_while_nil in H. rewrite H. reflexivity.
Qed.

Lemma Forall_rev_iff (P : code -> Prop) (s : text) : Forall P (rev s) <-> Forall P s.
Proof.
  split; intros H; [rewrite <- (rev_involutive s)|]; apply Forall_rev; exact H.
Qed.

Lemma line_break_space (c : code) : is_line_break c = true -> is_py_space c = true.
Proof.
  unfold is_line_break, is_py_space. intros H.
  repeat rewrite orb_true_iff in *. repeat rewrite andb_true_iff in *.
  rewrite ?N.leb_le, ?N.eqb_eq in *. lia.
Qed.

Lemma split_lines_aux_blank (cur s : text) :
  Forall (fun l => py_strip l = []) (split_lines_aux cur s) <->
  Forall (fun c => is_py_space c = true) cur /\ Forall (fun c => is_py_space c = true) s.
Proof.
  revert cur. induction s as [|c s IH]; intros cur; cbn [split_lines_aux].
  - destruct cur as [|c cur].
    + split; auto.
    + rewrite (List.Forall_cons_iff _ (rev (c :: cur))), py_strip_nil, Forall_rev_iff.
      split; [intros [H _]; auto | intros [H _]; auto].
  - rewrite (List.Forall_cons_iff _ c s). destruct (is_line_break c) eqn:E.
    + rewrite (List.Forall_cons_iff _ (rev cur)), py_strip_nil, Forall_rev_iff, IH.
      pose proof (line_break_space c E). split; [tauto|]. intros (H1 & _ & H2). auto.
    + rewrite IH, List.Forall_cons_iff. tauto.
Qed.

(** [_parse_csv_fallback] fails with its ''No non-empty lines'' error exactly
    when the model text consists of whitespace only ([str.isspace]
    characters, the empty text included): every line break is
    whitespace, so any other character leaves a non-empty stripped line. *)
Theorem fallback_no_lines_iff (raw : text) :
  parse_csv_fallback raw = inl NoNonEmptyLines <->
  Forall (fun c => is_py_space c = true) raw.
Proof.
  assert (Hl : nonempty_lines raw = [] <-> Forall (fun c => is_py_space c = true) raw).
  { unfold nonempty_lines, splitlines.
    transitivity (Forall (fun l => py_strip l = []) (split_lines_aux [] raw)).
    2: { rewrite split_lines_aux_blank. split; [tauto | auto]. }
    generalize (split_lines_aux [] raw) as ls. induction ls as [|l ls IH]; simpl; [split; auto|].
    rewrite List.Forall_cons_iff, <- IH.
    destruct (py_strip l) as [|c l'] eqn:E; simpl.
    - tauto.
    - split; [discriminate | intros [H _]; discriminate]. }
  rewrite <- Hl. unfold parse_csv_fallback.
  destruct (nonempty_lines raw) as [|l ls] eqn:E.
  - simpl. split; reflexivity.
  - assert (Hlast : exists x, last (l :: ls) = Some x).
    { clear. revert l. induction ls as [|l' ls IH]; intros l; [eexists; reflexivity|].
      destruct (IH l') as [x Hx]. exists x. exact Hx. }
    destruct Hlast as [x ->]. split; [|discriminate].
    destruct (csv_read_line x) as [fs|]; [|discriminate].
    destruct fs as [|? [|? [|? [|? [|? [|]]]]]]; try discriminate.
    destruct (py_float_of_text _); discriminate.
Qed.

Lemma csv_chars_app (r : csv_reader) (a b : text) :
  csv_chars r (a ++ b) = match csv_chars r a with Some r' => csv_chars r' b | None => None end.
Proof.
  revert r. induction a as [|c a IH]; intros r; [reflexivity|].
  cbn [app csv_chars]. destruct (csv_step r (Some c)); [apply IH|reflexivity].
Qed.

Lemma csv_plain_char_spec (c : code) :
  csv_plain_char c = true -> (c =? 44) = false /\ (c =? 34) = false /\ is_crlf c = false.
Proof.
  unfold csv_plain_char. intros H. apply negb_true_iff in H.
  repeat rewrite orb_false_iff in H. tauto.
Qed.

(** Characters taken literally pile up in the current field. *)
Lemma csv_plain_run (f : text) (st : csv_state) (acc : text) (n : N) (fl : list text) :
  st = StartField \/ st = InField ->
  forallb csv_plain_char f = true ->
  n + N.of_nat (length f) <= field_limit ->
  csv_chars (mkReader st acc n fl) f =
    Some (mkReader (match f with [] => st | _ => InField end) (rev f ++ acc)
                   (n + N.of_nat (length f)) fl).
Proof.
  revert st acc n. induction f as [|c f IH]; intros st acc n Hst Hf Hn.
  - cbn. rewrite N.add_0_r. reflexivity.
  - cbn [forallb] in Hf. apply andb_true_iff in Hf as [Hc Hf].
    destruct (csv_plain_char_spec c Hc) as (H44 & H34 & Hcr).
    assert (Hlim : (field_limit <=? n) = false).
    { apply N.leb_gt. cbn [length] in Hn. lia. }
    assert (Hstep : csv_step (mkReader st acc n fl) (Some c) =
                    Some (mkReader InField (c :: acc) (N.succ n) fl)).
    { destruct Hst as [-> | ->]; cbn [csv_step rd_state];
        rewrite Hcr; try rewrite H34; rewrite H44; unfold add_char; cbn [rd_len rd_field rd_fields];
        rewrite Hlim; reflexivity. }
    cbn [csv_chars]. rewrite Hstep.
    rewrite (IH InField (c :: acc) (N.succ n)); [| right; reflexivity | exact Hf | cbn [length] in Hn; lia].
    f_equal. f_equal.
    + destruct f; reflexivity.
    + cbn [rev]. rewrite <- app_assoc. reflexivity.
    + cbn [length]. lia.
Qed.

Lemma csv_field_end_eol (r : csv_reader) :
  rd_state r = StartField \/ rd_state r = InField ->
  csv_step r None = Some (save_field r StartRecord).
Proof. intros [H|H]; unfold csv_step; rewrite H; reflexivity. Qed.

Lemma csv_field_end_comma (r : csv_reader) :
  rd_state r = StartField \/ rd_state r = InField ->
  csv_step r (Some 44) = Some (save_field r StartField).
Proof. intros [H|H]; unfold csv_step; rewrite H; reflexivity. Qed.

Lemma csv_join_fields (fs : list text) (f : text) (fl : list text) :
  Forall (fun f => csv_plain_field f = true) (f :: fs) ->
  match csv_chars (mkReader StartField [] 0 fl) (join_csv (f :: fs)) with
  | Some r => csv_step r None
  | None => None
  end = Some (mkReader StartRecord [] 0 (rev (f :: fs) ++ fl)).
Proof.
  revert f fl. induction fs as [|g fs IH]; intros f fl Hall;
    apply List.Forall_cons_iff in Hall as [Hf Hrest];
    unfold csv_plain_field in Hf; apply andb_true_iff in Hf as [Hf Hlen];
    apply N.leb_le in Hlen.
  - cbn [join_csv]. rewrite (csv_plain_run f StartField [] 0 fl); [| left; reflexivity | exact Hf | lia].
    rewrite app_nil_r, csv_field_end_eol by (destruct f; auto).
    unfold save_field. cbn [rd_field rd_fields]. rewrite rev_involutive. reflexivity.
  - change (join_csv (f :: g :: fs)) with (f ++ 44 :: join_csv (g :: fs)).
    rewrite csv_chars_app.
    rewrite (csv_plain_run f StartField [] 0 fl); [| left; reflexivity | exact Hf | lia].
    rewrite app_nil_r.
    cbn [csv_chars]. rewrite csv_field_end_comma by (destruct f; auto).
    unfold save_field. cbn [rd_field rd_fields]. rewrite rev_involutive.
    etransitivity; [exact (IH g (f :: fl) Hrest)|].
    cbn [rev]. rewrite <- !app_assoc. reflexivity.
Qed.

Lemma join_csv_no_crlf (fs : list text) :
  Forall (fun f => csv_plain_field f = true) fs ->
  Forall (fun c => is_crlf c = false) (join_csv fs).
Proof.
  assert (Hf : forall f, csv_plain_field f = true -> Forall (fun c => is_crlf c = false) f).
  { intros f H. unfold csv_plain_field in H. apply andb_true_iff in H as [H _].
    apply List.Forall_forall. intros c Hc. rewrite forallb_forall in H.
    exact (proj2 (proj2 (csv_plain_char_spec c (H c Hc)))). }
  induction 1 as [|f fs Hp Hall IH]; [constructor|].
  destruct fs as [|g fs]; [exact (Hf f Hp)|].
  change (join_csv (f :: g :: fs)) with (f ++ 44 :: join_csv (g :: fs)).
  apply List.Forall_app. split; [exact (Hf f Hp)|]. constructor; [reflexivity | exact IH].
Qed.

Lemma csv_start_record (c : code) (s : text) (acc : text) (n : N) (fl : list text) :
  is_crlf c = false ->
  csv_chars (mkReader StartRecord acc n fl) (c :: s) = csv_chars (mkReader StartField acc n fl) (c :: s).
Proof. intros Hc. cbn [csv_chars csv_step rd_state]. rewrite Hc. reflexivity. Qed.

(** Round trip of [csv.reader]: a non-empty line made by joining fields
    with commas, none of them holding a comma, a double quote, CR or LF,
    nor longer than the field size limit, is read back as exactly those
    fields (empty fields included). *)
Theorem csv_read_join (fs : list text) :
  Forall (fun f => csv_plain_field f = true) fs ->
  join_csv fs <> [] ->
  csv_read_line (join_csv fs) = Some fs.
Proof.
  intros Hall Hne. destruct fs as [|f fs]; [contradiction|].
  pose proof (join_csv_no_crlf _ Hall) as Hcr.
  unfold csv_read_line.
  destruct (join_csv (f :: fs)) as [|c s] eqn:Ej; [contradiction|].
  apply List.Forall_cons_iff in Hcr as [Hc _].
  rewrite (csv_start_record c s [] 0 [] Hc).
  pose proof (csv_join_fields fs f [] Hall) as J. rewrite Ej in J.
  destruct (csv_chars (mkReader StartField [] 0 []) (c :: s)) as [r1|]; [|discriminate].
  rewrite J. cbn [rd_state rd_fields]. rewrite app_nil_r, rev_involutive. reflexivity.
Qed.

Lemma csv_read_join_witness :
  Forall (fun f => csv_plain_field f = true) [txt "2024-01-05"; txt "ACME"; []; txt "FOOD"; txt "12.5"] /\
  join_csv [txt "2024-01-05"; txt "ACME"; []; txt "FOOD"; txt "12.5"] <> [] /\
  csv_read_line (join_csv [txt "2024-01-05"; txt "ACME"; []; txt "FOOD"; txt "12.5"]) =
    Some [txt "2024-01-05"; txt "ACME"; []; txt "FOOD"; txt "12.5"].
Proof.
  assert (H1 : Forall (fun f => csv_plain_field f = true)
                 [txt "2024-01-05"; txt "ACME"; []; txt "FOOD"; txt "12.5"])
    by (repeat constructor).
  assert (H2 : join_csv [txt "2024-01-05"; txt "ACME"; []; txt "FOOD"; txt "12.5"] <> [])
    by (vm_compute; discriminate).
  split; [exact H1|]. split; [exact H2|]. exact (csv_read_join _ H1 H2).
Defined.

Lemma last_In {A} (l : list A) (x : A) : last l = Some x -> In x l.
Proof.
  induction l as [|a l IH]; [discriminate|].
  destruct l as [|b l]; cbn [last].
  - intros H. injection H as <-. left. reflexivity.
  - intros H. right. exact (IH H).
Qed.

Lemma nonempty_lines_nonempty (raw l : text) : In l (nonempty_lines raw) -> l <> [].
Proof.
  unfold nonempty_lines. intros H. apply filter_In in H as [_ H].
  destruct l; [discriminate | congruence].
Qed.

(** The CSV fallback reads the last non-empty stripped line of the model
    text by splitting it at its commas: when that line is the comma join
    of plain fields, five fields give the record (or the amount error when
    the fifth does not coerce with [float()]), any other number of fields
    gives the field-count error with that number. *)
Theorem fallback_last_line_fields (raw : text) (fs : list text) :
  last (nonempty_lines raw) = Some (join_csv fs) ->
  Forall (fun f => csv_plain_field f = true) fs ->
  parse_csv_fallback raw =
    match fs with
    | [d; p; n; c; a] =>
        match py_float_of_text a with
        | Some x => inr (mkTransaction d p n c x)
        | None => inl AmountNotFloat
        end
    | _ => inl (FieldCountMismatch (length fs))
    end.
Proof.
  intros Hlast Hall. unfold parse_csv_fallback. rewrite Hlast.
  rewrite csv_read_join by (exact Hall || exact (nonempty_lines_nonempty raw _ (last_In _ _ Hlast))).
  reflexivity.
Qed.

Lemma fallback_last_line_fields_witness :
  last (nonempty_lines (txt "Sure, here it is: " ++ [10] ++ txt "  2024-01-05,ACME,,FOOD,12.5 " ++ [10]))
    = Some (join_csv [txt "2024-01-05"; txt "ACME"; []; txt "FOOD"; txt "12.5"]) /\
  Forall (fun f => csv_plain_field f = true) [txt "2024-01-05"; txt "ACME"; []; txt "FOOD"; txt "12.5"] /\
  parse_csv_fallback (txt "Sure, here it is: " ++ [10] ++ txt "  2024-01-05,ACME,,FOOD,12.5 " ++ [10]) =
    match py_float_of_text (txt "12.5") with
    | Some x => inr (mkTransaction (txt "2024-01-05") (txt "ACME") [] (txt "FOOD") x)
    | None => inl AmountNotFloat
    end.
Proof.
  assert (H1 : last (nonempty_lines (txt "Sure, here it is: " ++ [10] ++ txt "  2024-01-05,ACME,,FOOD,12.5 " ++ [10]))
                 = Some (join_csv [txt "2024-01-05"; txt "ACME"; []; txt "FOOD"; txt "12.5"]))
    by (vm_compute; reflexivity).
  assert (H2 : Forall (fun f => csv_plain_field f = true)
                 [txt "2024-01-05"; txt "ACME"; []; txt "FOOD"; txt "12.5"]) by (repeat constructor).
  split; [exact H1|]. split; [exact H2|]. exact (fallback_last_line_fields _ _ H1 H2).
Defined.

Lemma split_lines_aux_single (cur s : text) :
  forallb (fun c => negb (is_line_break c)) s = true ->
  split_lines_aux cur s = match rev cur ++ s with [] => [] | l => [l] end.
Proof.
  revert cur. induction s as [|c s IH]; intros cur Hs; cbn [split_lines_aux].
  - rewrite app_nil_r. destruct cur as [|c cur]; [reflexivity|].
    cbn [rev]. destruct (rev cur ++ [c]) eqn:E; [|reflexivity].
    apply (f_equal (@length code)) in E. rewrite length_app in E. cbn in E. lia.
  - cbn [forallb] in Hs. apply andb_true_iff in Hs as [Hc Hs].
    apply negb_true_iff in Hc. rewrite Hc, (IH _ Hs). cbn [rev]. rewrite <- app_assoc. reflexivity.
Qed.

Lemma drop_while_head (p : code -> bool) (c : code) (s : text) :
  p c = false -> drop_while p (c :: s) = c :: s.
Proof. intros H. cbn. rewrite H. reflexivity. Qed.

(** A non-empty text without whitespace is its own single non-empty line. *)
Lemma nonempty_lines_single (s : text) :
  s <> [] -> forallb (fun c => negb (is_py_space c)) s = true -> nonempty_lines s = [s].
Proof.
  intros Hne Hs.
  assert (Hlb : forallb (fun c => negb (is_line_break c)) s = true).
  { rewrite forallb_forall in *. intros c Hc. specialize (Hs c Hc).
    destruct (is_line_break c) eqn:E; [|reflexivity].
    rewrite (line_break_space c E) in Hs. discriminate. }
  unfold nonempty_lines, splitlines. rewrite (split_lines_aux_single [] s Hlb). cbn [rev app].
  destruct s as [|c s'] eqn:Es; [contradiction|].
  assert (Hstrip : py_strip (c :: s') = c :: s').
  { unfold py_strip. pose proof Hs as Hall. rewrite forallb_forall in Hall.
    cbn [forallb] in Hs. apply andb_true_iff in Hs as [Hc _].
    apply negb_true_iff in Hc. rewrite (drop_while_head _ _ _ Hc).
    destruct (rev (c :: s')) as [|d r] eqn:Er.
    - apply (f_equal (@length code)) in Er. rewrite length_rev in Er. discriminate.
    - assert (Hd : is_py_space d = false).
      { assert (Hin : In d (c :: s')) by (apply in_rev; rewrite Er; left; reflexivity).
        apply negb_true_iff, Hall, Hin. }
      rewrite (drop_while_head _ _ _ Hd), <- Er, rev_involutive. reflexivity. }
  cbn [map]. rewrite Hstrip. reflexivity.
Qed.

(** [csv.reader]'s field size limit: when the last non-empty line starts
    with more than 131072 characters that are taken literally, reading it
    raises [csv.Error] whatever follows, and the fallback fails with its
    CSV parse error. *)
Theorem fallback_field_too_long (raw f rest : text) :
  last (nonempty_lines raw) = Some (f ++ rest) ->
  forallb csv_plain_char f = true ->
  field_limit < N.of_nat (length f) ->
  parse_csv_fallback raw = inl CsvParseError.
Proof.
  intros Hlast Hf Hlen. unfold parse_csv_fallback. rewrite Hlast.
  assert (Hnone : csv_read_line (f ++ rest) = None).
  { rewrite <- (firstn_skipn (N.to_nat field_limit) f) in Hf |- *.
    rewrite forallb_app in Hf. apply andb_true_iff in Hf as [Ha Hb].
    assert (Hla : length (firstn (N.to_nat field_limit) f) = N.to_nat field_limit)
      by (apply firstn_length_le; lia).
    destruct (firstn (N.to_nat field_limit) f) as [|a0 a] eqn:Ea.
    { cbn [length] in Hla. unfold field_limit in Hla. lia. }
    destruct (skipn (N.to_nat field_limit) f) as [|c b] eqn:Eb.
    { pose proof (length_skipn (N.to_nat field_limit) f) as Hs. rewrite Eb in Hs.
      cbn [length] in Hs. lia. }
    cbn [forallb] in Ha, Hb. apply andb_true_iff in Ha as [Ha0 Ha]. apply andb_true_iff in Hb as [Hc _].
    unfold csv_read_line. rewrite <- app_assoc. cbn [app].
    rewrite csv_start_record by exact (proj2 (proj2 (csv_plain_char_spec a0 Ha0))).
    change (a0 :: a ++ c :: b ++ rest) with ((a0 :: a) ++ c :: b ++ rest).
    rewrite csv_chars_app, csv_plain_run; [| left; reflexivity | cbn [forallb]; rewrite Ha0; exact Ha | ].
    2: { rewrite Hla, N2Nat.id. lia. }
    destruct (csv_plain_char_spec c Hc) as (H44 & _ & Hcr).
    rewrite Hla, N2Nat.id. cbn [csv_chars csv_step rd_state]. rewrite Hcr, H44.
    unfold add_char. cbn [rd_len]. rewrite N.add_0_l, N.leb_refl. reflexivity. }
  rewrite Hnone. reflexivity.
Qed.

Lemma fallback_field_too_long_witness :
  last (nonempty_lines long_line) = Some (long_line ++ []) /\
  forallb csv_plain_char long_line = true /\
  field_limit < N.of_nat (length long_line) /\
  parse_csv_fallback long_line = inl CsvParseError.
Proof.
  assert (H1 : last (nonempty_lines long_line) = Some (long_line ++ [])).
  { assert (Hne : Nat.eqb (length long_line) 0 = false) by (vm_compute; reflexivity).
    assert (Hsp : forallb (fun c => negb (is_py_space c)) long_line = true)
      by (vm_compute; reflexivity).
    rewrite (nonempty_lines_single long_line); [| destruct long_line; discriminate | exact Hsp].
    rewrite app_nil_r. reflexivity. }
  assert (H2 : forallb csv_plain_char long_line = true) by (vm_compute; reflexivity).
  assert (H3 : field_limit < N.of_nat (length long_line)) by (vm_compute; reflexivity).
  split; [exact H1|]. split; [exact H2|]. split; [exact H3|].
  exact (fallback_field_too_long _ _ _ H1 H2 H3).
Defined.

(* ------------------------------------------------------------------ *)
(** *** The category memory and the known lists *)

Lemma existsb_key_false (mem : memory) (p : text) :
  existsb (fun '(k, _) => text_eqb k p) mem = false -> ~ In p (map fst mem).
Proof.
  intros H Hin. apply in_map_iff in Hin as [[k c] [Hk Hin]]. cbn in Hk. subst k.
  assert (Hex : existsb (fun '(k, _) => text_eqb k p) mem = true).
  { apply existsb_exists. exists (p, c). split; [exact Hin | apply text_eqb_refl]. }
  congruence.
Qed.

Lemma NoDup_snoc {A} (l : list A) (x : A) : NoDup l -> ~ In x l -> NoDup (l ++ [x]).
Proof.
  intros Hl Hx. apply NoDup_app. split; [exact Hl|]. split; [|apply NoDup_singleton].
  intros y Hy Hy'. apply list_elem_of_singleton in Hy'. subst y. apply Hx, list_elem_of_In, Hy.
Qed.

Lemma add_category_grows (mem : memory) (p c : text) :
  (add_category_to_db mem p c = mem \/
     (add_category_to_db mem p c = mem ++ [(p, c)] /\ ~ In p (map fst mem))) /\
  (NoDup (map fst mem) -> NoDup (map fst (add_category_to_db mem p c))).
Proof.
  unfold add_category_to_db.
  destruct (existsb (fun '(k, _) => text_eqb k p) mem) eqn:E.
  - split; [left; reflexivity | auto].
  - pose proof (existsb_key_false mem p E) as Hn. split; [right; split; [reflexivity | exact Hn]|].
    intros Hd. rewrite map_app. apply NoDup_snoc; assumption.
Qed.

(** Across any number of rows, [TransactionAgent.parse_transaction] only
    ever appends to the category memory: at most one row, keyed by the
    upper-cased payee hint and only when no row has exactly that payee yet.
    So the payees of the memory stay pairwise distinct. *)
Theorem parse_transaction_memory_append (nfkd_char : code -> text) (py_str : json -> text)
    (upper_char : code -> code * text) (lower_char : code -> text)
    (llm : row -> list text -> list text -> option text)
    (mem : memory) (r : row) (cats pays : list text) :
  let mem' := fst (fst (parse_transaction nfkd_char py_str upper_char lower_char llm mem r cats pays)) in
  (mem' = mem \/ exists c, mem' = mem ++ [(payee_hint upper_char r, c)] /\
                           ~ In (payee_hint upper_char r) (map fst mem)) /\
  (NoDup (map fst mem) -> NoDup (map fst mem')).
Proof.
  cbv zeta. unfold parse_transaction. cbv zeta.
  destruct (parse_transaction_llm _ _ _ _ _ _) as [e|txn]; [cbn; split; auto|].
  destruct (negb _ && truthy (category txn)); cbn; [|split; auto].
  destruct (add_category_grows mem (payee_hint upper_char r) (category txn)) as [[H|[H Hn]] Hd].
  - split; [left; exact H | exact Hd].
  - split; [right; exists (category txn); split; assumption | exact Hd].
Qed.

Lemma parse_transaction_memory_append_witness :
  NoDup (map fst mem_acme) /\
  fst (fst (parse_transaction nfkd_below_a0 py_str_scalar upper_latin1 lower_latin1 llm_acme
              mem_acme row_acme [] [])) =
    mem_acme ++ [(payee_hint upper_latin1 row_acme, txt "FOOD")] /\
  NoDup (map fst (fst (fst (parse_transaction nfkd_below_a0 py_str_scalar upper_latin1 lower_latin1
                              llm_acme mem_acme row_acme [] [])))).
Proof.
  assert (Hd : NoDup (map fst mem_acme)) by (cbn; apply NoDup_singleton).
  split; [exact Hd|]. split; [vm_compute; reflexivity|].
  exact (proj2 (parse_transaction_memory_append nfkd_below_a0 py_str_scalar upper_latin1 lower_latin1
                  llm_acme mem_acme row_acme [] []) Hd).
Defined.

(** The [as_completed] loop fails exactly when some row future fails, and
    then with the message of the first failure in completion order: every
    future completed before it succeeded. *)
Theorem collect_results_first_failure (outcome : nat -> text + Transaction) (order : list nat)
    (results : list (option Transaction)) (cats pays : list text) (msg : text) :
  collect_results outcome order results cats pays = inl msg <->
  exists pre i post, order = pre ++ i :: post /\
    Forall (fun j => exists t, outcome j = inr t) pre /\ outcome i = inl msg.
Proof.
  revert results cats pays. induction order as [|i order IH]; intros results cats pays; cbn.
  - split; [discriminate|]. intros (pre & i & post & H & _). destruct pre; discriminate.
  - destruct (outcome i) as [m|t] eqn:E.
    + split.
      * intros H. injection H as <-. exists [], i, order. auto.
      * intros ([|j pre] & i' & post & Ho & Hpre & Hi).
        -- injection Ho as <- <-. congruence.
        -- injection Ho as <- _. inversion Hpre as [|? ? [t Ht] _]. congruence.
    + destruct (aggregate t cats pays) as [cats1 pays1]. rewrite IH. split.
      * intros (pre & i' & post & -> & Hpre & Hi). exists (i :: pre), i', post.
        split; [reflexivity|]. split; [constructor; [exists t; exact E | exact Hpre] | exact Hi].
      * intros ([|j pre] & i' & post & Ho & Hpre & Hi).
        -- injection Ho as <- _. congruence.
        -- injection Ho as <- ->. inversion Hpre; subst. exists pre, i', post. auto.
Qed.

Lemma known_step_grows (x : text) (xs : list text) :
  exists e, (if truthy x && negb (py_in x xs) then xs ++ [x] else xs) = xs ++ e /\
    Forall (fun y => truthy y = true) e /\
    (NoDup xs -> NoDup (if truthy x && negb (py_in x xs) then xs ++ [x] else xs)).
Proof.
  destruct (truthy x) eqn:Ht; [destruct (py_in x xs) eqn:Hin|]; cbn.
  - exists []. rewrite app_nil_r. auto.
  - exists [x]. split; [reflexivity|]. split; [constructor; auto|].
    intros Hd. apply NoDup_snoc; [exact Hd|]. intros Hx.
    assert (py_in x xs = true) by (apply existsb_exists; exists x; split; [exact Hx | apply text_eqb_refl]).
    congruence.
  - exists []. rewrite app_nil_r. auto.
Qed.

Lemma collect_known_lists_aux (outcome : nat -> text + Transaction) (order : list nat)
    (results results' : list (option Transaction)) (cats pays cats' pays' : list text) :
  collect_results outcome order results cats pays = inr (results', cats', pays') ->
  (exists ec, cats' = cats ++ ec /\ Forall (fun c => truthy c = true) ec) /\
  (exists ep, pays' = pays ++ ep /\ Forall (fun p => truthy p = true) ep) /\
  (NoDup cats -> NoDup cats') /\ (NoDup pays -> NoDup pays').
Proof.
  revert results cats pays. induction order as [|i order IH]; intros results cats pays; cbn.
  - intros H. injection H as <- <- <-.
    split; [exists []; rewrite app_nil_r; auto|]. split; [exists []; rewrite app_nil_r; auto|]. auto.
  - destruct (outcome i) as [m|t]; [discriminate|].
    unfold aggregate.
    destruct (known_step_grows (category t) cats) as (ec1 & Ec1 & Fc1 & Dc1).
    destruct (known_step_grows (payee t) pays) as (ep1 & Ep1 & Fp1 & Dp1).
    intros H. destruct (IH _ _ _ H) as ((ec2 & Ec2 & Fc2) & (ep2 & Ep2 & Fp2) & Dc2 & Dp2).
    rewrite Ec1 in Ec2, Dc2. rewrite Ep1 in Ep2, Dp2. rewrite Ec1 in Dc1. rewrite Ep1 in Dp1.
    split; [exists (ec1 ++ ec2); rewrite app_assoc; split; [exact Ec2 | apply List.Forall_app; auto]|].
    split; [exists (ep1 ++ ep2); rewrite app_assoc; split; [exact Ep2 | apply List.Forall_app; auto]|].
    auto.
Qed.

(** On success, the known-categories and known-payees lists the loop
    hands back extend the lists read at the start: entries are only ever
    appended, each appended entry is a non-empty string, and no entry is
    appended twice, so lists without duplicates stay without duplicates. *)
Theorem collect_results_known_lists (outcome : nat -> text + Transaction) (order : list nat)
    (results results' : list (option Transaction)) (cats pays cats' pays' : list text) :
  collect_results outcome order results cats pays = inr (results', cats', pays') ->
  (exists ec, cats' = cats ++ ec /\ Forall (fun c => truthy c = true) ec) /\
  (exists ep, pays' = pays ++ ep /\ Forall (fun p => truthy p = true) ep) /\
  (NoDup cats -> NoDup cats') /\ (NoDup pays -> NoDup pays').
Proof. apply collect_known_lists_aux. Qed.

Lemma collect_results_known_lists_witness :
  collect_results (fun i => outcome_food i (default [] (rows3 !! i))) order3 (replicate 3 None)
    [txt "FOOD"] [txt "B"] =
    inr (fold_left (insert_result (fun i => norm_food i (default [] (rows3 !! i)))) order3 (replicate 3 None),
         [txt "FOOD"], [txt "B"; txt "C"; txt "A"]) /\
  (NoDup [txt "B"] -> NoDup [txt "B"; txt "C"; txt "A"]).
Proof.
  assert (H : collect_results (fun i => outcome_food i (default [] (rows3 !! i))) order3 (replicate 3 None)
                [txt "FOOD"] [txt "B"] =
              inr (fold_left (insert_result (fun i => norm_food i (default [] (rows3 !! i)))) order3
                     (replicate 3 None), [txt "FOOD"], [txt "B"; txt "C"; txt "A"]))
    by (vm_compute; reflexivity).
  split; [exact H|]. exact (proj2 (proj2 (proj2 (collect_results_known_lists _ _ _ _ _ _ _ _ H)))).
Defined.

(* ------------------------------------------------------------------ *)
(** *** [run_job], uploads and downloads *)

Lemma dict_get_set_ne {V} (d : list (text * V)) (k k' : text) (v : V) :
  k' <> k -> dict_get (dict_set d k v) k' = dict_get d k'.
Proof.
  intros Hne. assert (E : text_eqb k' k = false)
    by (destruct (text_eqb k' k) eqn:E; [apply text_eqb_eq in E; contradiction | reflexivity]).
  induction d as [|[k'' v''] d IH]; cbn; [rewrite E; reflexivity|].
  destruct (text_eqb k k'') eqn:E2; cbn.
  - apply text_eqb_eq in E2. subst k''. rewrite E. reflexivity.
  - destruct (text_eqb k' k''); [reflexivity | exact IH].
Qed.

Ltac no_db_error :=
  let Hok := fresh "Hok" in intros Hok; rewrite Hok in *; discriminate.

Lemma run_body_cases (input_key output_key : text)
    (read_csv : text -> text + list row) (outcome : nat -> row -> text + Transaction)
    (order : list nat) (to_csv : list (option Transaction) -> text)
    (put_error : text -> text -> option text) (now : text) (w : world) :
  match run_body input_key output_key read_csv outcome order to_csv put_error now w with
  | (w', inl _) => bucket w' = bucket w
  | (w', inr _) => job_status w' = Completed /\ job_completed_at w' = Some now /\
                   exists d, bucket w' = dict_set (bucket w) output_key d
  end.
Proof.
  unfold run_body, bind, lift, gets, modify, get_file, save_file.
  destruct (dict_get (bucket w) input_key) as [data|]; cbn; [|reflexivity].
  destruct (read_csv data) as [m|rows]; cbn; [reflexivity|].
  destruct (collect_results _ _ _ _ _) as [m|[[results' cats'] pays']]; cbn; [reflexivity|].
  destruct (put_error output_key (to_csv results')); cbn; [reflexivity|].
  split; [reflexivity|]. split; [reflexivity|]. eauto.
Qed.

(** With no job-row statement failing, [run_job_db] is [run_job]. *)
Lemma run_job_db_no_db_error (input_key output_key : text)
    (read_csv : text -> text + list row) (outcome : nat -> row -> text + Transaction)
    (order : list nat) (to_csv : list (option Transaction) -> text)
    (put_error : text -> text -> option text) (now : text) (db_error : db_step -> option text)
    (w : world) :
  (forall s, db_error s = None) ->
  run_job_db input_key output_key read_csv outcome order to_csv put_error now db_error w =
    (run_job input_key output_key read_csv outcome order to_csv put_error now w, None).
Proof.
  intros Hok. unfold run_job_db, run_job. rewrite !Hok.
  destruct (run_body _ _ _ _ _ _ _ _ _) as [w2 [msg|u]]; reflexivity.
Qed.

(** [JobRunner.run_job], its job-row statements allowed to raise.  When
    nothing escapes, the job ends [completed] or [error] (with a message)
    with the completion timestamp set.  An exception escapes only from a
    failing job-row statement, and then leaves the row as last committed:
    the status it had or [in_progress], timestamp and error unchanged;
    with no job-row statement failing nothing escapes.  No S3 object but
    the output is written. *)
Theorem run_job_final_state (input_key output_key : text)
    (read_csv : text -> text + list row) (outcome : nat -> row -> text + Transaction)
    (order : list nat) (to_csv : list (option Transaction) -> text)
    (put_error : text -> text -> option text) (now : text) (db_error : db_step -> option text)
    (w : world) :
  let '(w', exc) := run_job_db input_key output_key read_csv outcome order to_csv put_error now
                      db_error w in
  match exc with
  | None =>
      job_completed_at w' = Some now /\
      (job_status w' = Completed \/ (job_status w' = Failed /\ exists msg, job_error w' = Some msg))
  | Some e =>
      (exists s, db_error s = Some e) /\
      (job_status w' = job_status w \/ job_status w' = InProgress) /\
      job_completed_at w' = job_completed_at w /\ job_error w' = job_error w
  end /\
  ((forall s, db_error s = None) -> exc = None) /\
  (forall k, k <> output_key -> dict_get (bucket w') k = dict_get (bucket w) k).
Proof.
  unfold run_job_db.
  destruct (db_error DbSetInProgress) as [e|] eqn:E1; cbv beta iota zeta.
  { split; [split; [eauto | auto]|]. split; [no_db_error|auto]. }
  destruct (db_error DbCommitStart) as [e|] eqn:E2; cbv beta iota zeta.
  { split; [split; [eauto | auto]|]. split; [no_db_error|auto]. }
  pose proof (run_body_cases input_key output_key read_csv outcome order to_csv put_error now
                (set_status InProgress w)) as Hb.
  destruct (run_body _ _ _ _ _ _ _ _ _) as [w2 [msg|u]]; cbv beta iota zeta.
  - destruct (db_error DbSetError) as [e|] eqn:E3; cbv beta iota zeta; cbn [restore_row set_status set_finished
      job_status job_completed_at job_error bucket].
    { split; [split; [eauto | auto]|]. split; [no_db_error|].
      intros k _. rewrite Hb. reflexivity. }
    destruct (db_error DbCommitEnd) as [e|] eqn:E4; cbv beta iota zeta; cbn [restore_row set_status set_finished
      job_status job_completed_at job_error bucket].
    { split; [split; [eauto | auto]|]. split; [no_db_error|].
      intros k _. rewrite Hb. reflexivity. }
    split; [split; [reflexivity | right; eauto]|]. split; [intros _; reflexivity|].
    intros k _. rewrite Hb. reflexivity.
  - destruct Hb as (Hs & Hat & d & Hb).
    assert (Hk : forall k, k <> output_key -> dict_get (bucket w2) k = dict_get (bucket w) k).
    { intros k Hk. rewrite Hb. apply dict_get_set_ne. exact Hk. }
    destruct (db_error DbSetCompleted) as [e0|] eqn:E3; cbv beta iota zeta.
    + destruct (db_error DbSetError) as [e|] eqn:E5; cbv beta iota zeta; cbn [restore_row set_status set_finished
        job_status job_completed_at job_error bucket].
      { split; [split; [eauto | auto]|]. split; [no_db_error | exact Hk]. }
      destruct (db_error DbCommitEnd) as [e|] eqn:E4; cbv beta iota zeta; cbn [restore_row set_status set_finished
        job_status job_completed_at job_error bucket].
      { split; [split; [eauto | auto]|]. split; [no_db_error | exact Hk]. }
      split; [split; [reflexivity | right; eauto]|]. split; [intros _; reflexivity | exact Hk].
    + destruct (db_error DbCommitEnd) as [e|] eqn:E4; cbv beta iota zeta; cbn [restore_row set_status set_finished
        job_status job_completed_at job_error bucket].
      { split; [split; [eauto | auto]|]. split; [no_db_error | exact Hk]. }
      split; [split; [exact Hat | left; exact Hs]|]. split; [intros _; reflexivity | exact Hk].
Qed.

(** On a completed run the known-categories and known-payees files hold
    the lists read at the start (an absent file read as empty) extended by
    non-empty entries only. *)
Theorem run_job_known_files (input_key output_key : text)
    (read_csv : text -> text + list row) (outcome : nat -> row -> text + Transaction)
    (order : list nat) (to_csv : list (option Transaction) -> text)
    (put_error : text -> text -> option text) (now : text) (w : world) :
  let w' := run_job input_key output_key read_csv outcome order to_csv put_error now w in
  job_status w' = Completed ->
  (exists ec, cats_file w' = Some (default [] (cats_file w) ++ ec) /\ Forall (fun c => truthy c = true) ec) /\
  (exists ep, pays_file w' = Some (default [] (pays_file w) ++ ep) /\ Forall (fun p => truthy p = true) ep).
Proof.
  cbv zeta. run_steps.
  destruct (dict_get (bucket w) input_key) as [data|]; cbn; [|discriminate].
  destruct (read_csv data) as [m|rows]; cbn; [discriminate|].
  destruct (collect_results _ _ _ _ _) as [m|[[results' cats'] pays']] eqn:Ec; cbn; [discriminate|].
  destruct (put_error output_key (to_csv results')); cbn; [discriminate|].
  intros _. destruct (collect_known_lists_aux _ _ _ _ _ _ _ _ Ec) as (Hc & Hp & _). split.
  - destruct Hc as (ec & -> & Hf). eauto.
  - destruct Hp as (ep & -> & Hf). eauto.
Qed.

Lemma run_job_known_files_witness :
  job_status (run_job key_in key_out read3 outcome_food order3 csv_of put_ok now0 world0) = Completed /\
  cats_file (run_job key_in key_out read3 outcome_food order3 csv_of put_ok now0 world0) =
    Some [txt "FOOD"].
Proof.
  assert (H : job_status (run_job key_in key_out read3 outcome_food order3 csv_of put_ok now0 world0) = Completed)
    by (vm_compute; reflexivity).
  split; [exact H|].
  destruct (proj1 (run_job_known_files key_in key_out read3 outcome_food order3 csv_of put_ok now0 world0 H))
    as (ec & Hc & _).
  rewrite Hc. vm_compute in Hc. injection Hc as <-. reflexivity.
Defined.

Lemma job_in_out_eq (a b : text) : job_in_key a = job_out_key b <-> a = b ++ txt "_out".
Proof.
  unfold job_in_key, job_out_key. split.
  - intros H. apply app_inv_head in H.
    change (txt "_out.csv") with (txt "_out" ++ txt ".csv") in H.
    rewrite app_assoc in H. apply app_inv_tail in H. exact H.
  - intros ->. rewrite <- app_assoc. reflexivity.
Qed.

Lemma job_in_ne_out (a b : text) : ~ In 95 a -> job_in_key a <> job_out_key b.
Proof.
  intros Ha H. apply job_in_out_eq in H. subst a. apply Ha.
  apply in_or_app. right. left. reflexivity.
Qed.

(** The S3 keys [save_upload_file] derives from a job id never collide:
    distinct ids give distinct input keys and distinct output keys, and
    an input key equals an output key only for an id ending in
    [_out] (which a [uuid4] string, made of hex digits and hyphens, never
    does). *)
Theorem job_keys_distinct (a b : text) :
  (job_in_key a = job_in_key b <-> a = b) /\
  (job_out_key a = job_out_key b <-> a = b) /\
  (job_in_key a = job_out_key b <-> a = b ++ txt "_out").
Proof.
  unfold job_in_key, job_out_key. split; [|split].
  - split; [|intros ->; reflexivity]. intros H. apply app_inv_head, app_inv_tail in H. exact H.
  - split; [|intros ->; reflexivity]. intros H. apply app_inv_head, app_inv_tail in H. exact H.
  - apply job_in_out_eq.
Qed.

(** Upload, run and download composed, the job-row statements of
    [run_job] allowed to raise: after [save_upload_file] stored the
    uploaded CSV under the job's input key (its upload succeeding) and
    [run_job] ran on a pending job with the two keys it returned, the
    uploaded input is still there.  When the job's output key held no
    object before, the [download] route serves a file if the job ended
    [completed]; conversely a served file means the job completed or one
    of the job-row statements after the upload (the [completed] update or
    the final commit) raised: [download] does not look at the status. *)
Theorem upload_run_download (put_error : text -> text -> option text) (job_id data : text)
    (read_csv : text -> text + list row) (outcome : nat -> row -> text + Transaction)
    (order : list nat) (to_csv : list (option Transaction) -> text) (now : text)
    (db_error : db_step -> option text) (w : world)
    (Hid : ~ In 95 job_id) (Hpend : job_status w = Pending)
    (Hput : put_error (job_in_key job_id) data = None)
    (Hfresh : dict_get (bucket w) (job_out_key job_id) = None) :
  let '(w1, r) := save_upload_file put_error job_id data w in
  r = inr (job_id, job_in_key job_id, job_out_key job_id) /\
  let '(w2, _) := run_job_db (job_in_key job_id) (job_out_key job_id) read_csv outcome order to_csv
                    put_error now db_error w1 in
  dict_get (bucket w2) (job_in_key job_id) = Some data /\
  (job_status w2 = Completed -> exists d, download (Some (job_out_key job_id)) w2 = HttpOk d) /\
  ((exists d, download (Some (job_out_key job_id)) w2 = HttpOk d) ->
     job_status w2 = Completed \/ db_error DbSetCompleted <> None \/ db_error DbCommitEnd <> None).
Proof.
  unfold save_upload_file, bind, ret, save_file. rewrite Hput. cbv beta iota zeta.
  split; [reflexivity|].
  pose proof (job_in_ne_out job_id job_id Hid) as Hne.
  set (w1 := set_object (job_in_key job_id) data w).
  assert (Hin1 : dict_get (bucket w1) (job_in_key job_id) = Some data)
    by (apply dict_get_set_same).
  assert (Hout1 : dict_get (bucket w1) (job_out_key job_id) = None).
  { unfold w1, set_object. cbn [bucket]. rewrite dict_get_set_ne by (intros H; apply Hne; symmetry; exact H).
    exact Hfresh. }
  assert (Hst1 : job_status w1 = Pending) by exact Hpend.
  assert (Hdl : forall w', download (Some (job_out_key job_id)) w' =
                  match dict_get (bucket w') (job_out_key job_id) with
                  | Some d => HttpOk d
                  | None => HttpError 404 (txt "Output file missing in S3")
                  end).
  { intros w'. unfold download, get_file. change (truthy (job_out_key job_id)) with true.
    cbn [negb]. destruct (dict_get (bucket w') (job_out_key job_id)); reflexivity. }
  unfold run_job_db.
  destruct (db_error DbSetInProgress) as [e|] eqn:E1; cbv beta iota zeta.
  { rewrite Hdl, Hout1, Hst1. split; [exact Hin1|]. split; [discriminate | intros [d Hd]; discriminate]. }
  destruct (db_error DbCommitStart) as [e|] eqn:E2; cbv beta iota zeta.
  { rewrite Hdl, Hout1, Hst1. split; [exact Hin1|]. split; [discriminate | intros [d Hd]; discriminate]. }
  pose proof (run_body_cases (job_in_key job_id) (job_out_key job_id) read_csv outcome order to_csv
                put_error now (set_status InProgress w1)) as Hb.
  destruct (run_body _ _ _ _ _ _ _ _ _) as [w2 [msg|u]]; cbv beta iota zeta.
  - cbn [bucket set_status] in Hb.
    destruct (db_error DbSetError) as [e|] eqn:E3; cbv beta iota zeta;
      [|destruct (db_error DbCommitEnd) as [e|] eqn:E4; cbv beta iota zeta];
      rewrite Hdl; cbn [bucket job_status restore_row set_finished set_status]; rewrite Hb, Hout1;
      (split; [exact Hin1|]); (split; [discriminate | intros [d Hd]; discriminate]).
  - destruct Hb as (Hs & _ & d & Hb). cbn [bucket set_status] in Hb.
    assert (Hin2 : dict_get (bucket w2) (job_in_key job_id) = Some data)
      by (rewrite Hb, dict_get_set_ne by exact Hne; exact Hin1).
    assert (Hout2 : dict_get (bucket w2) (job_out_key job_id) = Some d)
      by (rewrite Hb; apply dict_get_set_same).
    destruct (db_error DbSetCompleted) as [e0|] eqn:E3; cbv beta iota zeta.
    + destruct (db_error DbSetError) as [e|] eqn:E5; cbv beta iota zeta;
        [|destruct (db_error DbCommitEnd) as [e|] eqn:E4; cbv beta iota zeta];
        rewrite Hdl; cbn [bucket job_status restore_row set_finished set_status]; rewrite Hout2;
        (split; [exact Hin2|]); (split; [discriminate | intros _; right; left; congruence]).
    + destruct (db_error DbCommitEnd) as [e|] eqn:E4; cbv beta iota zeta;
        rewrite Hdl; cbn [bucket job_status restore_row set_finished set_status]; rewrite Hout2.
      * split; [exact Hin2|]. split; [discriminate | intros _; right; right; congruence].
      * split; [exact Hin2|]. split; [intros _; eauto | intros _; left; exact Hs].
Qed.

Lemma upload_run_download_witness :
  ~ In 95 (txt "0b7e-41") /\ job_status world0 = Pending /\
  put_ok (job_in_key (txt "0b7e-41")) (txt "Data,payee") = None /\
  dict_get (bucket world0) (job_out_key (txt "0b7e-41")) = None /\
  (let '(w1, r) := save_upload_file put_ok (txt "0b7e-41") (txt "Data,payee") world0 in
   r = inr (txt "0b7e-41", job_in_key (txt "0b7e-41"), job_out_key (txt "0b7e-41")) /\
   let '(w2, _) := run_job_db (job_in_key (txt "0b7e-41")) (job_out_key (txt "0b7e-41")) read3
                     outcome_food order3 csv_of put_ok now0 db_fail_completed w1 in
   dict_get (bucket w2) (job_in_key (txt "0b7e-41")) = Some (txt "Data,payee") /\
   (job_status w2 = Completed ->
      exists d, download (Some (job_out_key (txt "0b7e-41"))) w2 = HttpOk d) /\
   ((exists d, download (Some (job_out_key (txt "0b7e-41"))) w2 = HttpOk d) ->
      job_status w2 = Completed \/ db_fail_completed DbSetCompleted <> None \/
      db_fail_completed DbCommitEnd <> None)) /\
  (let '(w1, _) := save_upload_file put_ok (txt "0b7e-41") (txt "Data,payee") world0 in
   let '(w2, exc) := run_job_db (job_in_key (txt "0b7e-41")) (job_out_key (txt "0b7e-41")) read3
                       outcome_food order3 csv_of put_ok now0 db_fail_completed w1 in
   job_status w2 = Failed /\ exc = None /\
   exists d, download (Some (job_out_key (txt "0b7e-41"))) w2 = HttpOk d).
Proof.
  assert (H1 : ~ In 95 (txt "0b7e-41")).
  { assert (Hb : existsb (N.eqb 95) (txt "0b7e-41") = false) by (vm_compute; reflexivity).
    intros H. apply not_true_iff_false in Hb. apply Hb, existsb_exists. exists 95.
    split; [exact H | apply N.eqb_refl]. }
  assert (H2 : job_status world0 = Pending) by reflexivity.
  assert (H3 : put_ok (job_in_key (txt "0b7e-41")) (txt "Data,payee") = None) by reflexivity.
  assert (H4 : dict_get (bucket world0) (job_out_key (txt "0b7e-41")) = None) by (vm_compute; reflexivity).
  split; [exact H1|]. split; [exact H2|]. split; [exact H3|]. split; [exact H4|]. split.
  - exact (upload_run_download put_ok (txt "0b7e-41") (txt "Data,payee") read3 outcome_food order3
             csv_of now0 db_fail_completed world0 H1 H2 H3 H4).
  - vm_compute. split; [reflexivity|]. split; [reflexivity|]. eexists. reflexivity.
Defined.
